(** * MagentaA11y MCP server: the query core (helpers.js) and its dispatcher (tools.js)

    A shallow embedding of [src/helpers.js] (content lookup, component
    resolution, keyword search, format inspection), of the handlers of
    [src/tools.js] that the stated properties are about and of the JSON-RPC
    endpoint [netlify/functions/api.js], followed by the properties
    themselves.

    Conventions of the embedding.
    - A JavaScript string is a [string]: a sequence of code units, read as
      Latin-1 code points (0..255).  [toLowerCase] and [trim] are written out
      on that alphabet.
    - A JavaScript value is a [JsValue].  Numbers are the integers, NaN and the
      two infinities; fractional doubles are outside the model.
    - A call that can throw returns a [Completion]: [Normal v] or [Throw e].
    - [data/content.json] is not part of the sources: the content is a
      parameter of every function that reads it.  A platform is looked up
      among the own properties of the content; the properties are stated for
      platform keys that are not names of properties of [Object.prototype].
    - Three built-ins of the host are parameters too ([Host]): the collation of
      [String.prototype.localeCompare], the regular-expression engine on
      patterns that hold syntax characters, and the numeric parser behind
      [ToNumber] on strings. *)

From Stdlib Require Import ZArith Lia Bool Ascii String List Sorted OrderedTypeEx.
From stdpp Require Import base option list strings gmap pretty.

Local Open Scope Z_scope.

(** ** JavaScript strings *)

Definition nl : string := String "010"%char EmptyString.
Definition dquote : string := String "034"%char EmptyString.

(** One code unit of [String.prototype.toLowerCase] on Latin-1: A..Z, and
    U+00C0..U+00DE except the multiplication sign U+00D7. *)
Definition toLowerCase_unit (c : ascii) : ascii :=
  let n := nat_of_ascii c in
  if ((65 <=? n)%nat && (n <=? 90)%nat)
     || ((192 <=? n)%nat && (n <=? 222)%nat && negb (n =? 215)%nat)
  then ascii_of_nat (n + 32) else c.

Fixpoint toLowerCase (s : string) : string :=
  match s with
  | EmptyString => EmptyString
  | String c s' => String (toLowerCase_unit c) (toLowerCase s')
  end.

(** WhiteSpace and LineTerminator code points below U+0100: TAB, LF, VT, FF,
    CR, SP and NBSP. *)
Definition isWhiteSpace (c : ascii) : bool :=
  let n := nat_of_ascii c in
  ((9 <=? n)%nat && (n <=? 13)%nat) || (n =? 32)%nat || (n =? 160)%nat.

Fixpoint trimStart (s : string) : string :=
  match s with
  | EmptyString => EmptyString
  | String c s' => if isWhiteSpace c then trimStart s' else s
  end.

Fixpoint trimEnd (s : string) : string :=
  match s with
  | EmptyString => EmptyString
  | String c s' =>
      match trimEnd s' with
      | EmptyString => if isWhiteSpace c then EmptyString else String c EmptyString
      | r => String c r
      end
  end.

(** [String.prototype.trim] *)
Definition trim (s : string) : string := trimEnd (trimStart s).

(** [s.includes(sub)]: [sub] occurs in [s] at some position. *)
Fixpoint includes (s sub : string) : bool :=
  String.prefix sub s
  || match s with
     | EmptyString => false
     | String _ s' => includes s' sub
     end.

Fixpoint string_drop (n : nat) (s : string) : string :=
  match n, s with
  | O, _ => s
  | S n', String _ s' => string_drop n' s'
  | S _, EmptyString => EmptyString
  end.

(** [parts.join(sep)] on an array of strings. *)
Fixpoint join (sep : string) (parts : list string) : string :=
  match parts with
  | [] => EmptyString
  | [x] => x
  | x :: rest => x +:+ sep +:+ join sep rest
  end.

(** ** JavaScript values *)

Inductive JsNumber : Type :=
  | NaN
  | Infinity (negative : bool)
  | Finite (z : Z).

#[warnings="-register-all"]
Inductive JsValue : Type :=
  | JUndefined
  | JNull
  | JBool (b : bool)
  | JNum (n : JsNumber)
  | JStr (s : string)
  | JArr (elements : list JsValue)
  | JObj (properties : list (string * JsValue)).

(** ToBoolean: the falsy values are undefined, null, false, 0, NaN and the
    empty string. *)
Definition ToBoolean (v : JsValue) : bool :=
  match v with
  | JUndefined | JNull => false
  | JBool b => b
  | JNum NaN => false
  | JNum (Finite z) => negb (z =? 0)
  | JNum (Infinity _) => true
  | JStr s => negb (String.eqb s EmptyString)
  | JArr _ | JObj _ => true
  end.

Definition typeof (v : JsValue) : string :=
  match v with
  | JUndefined => "undefined"
  | JNull => "object"
  | JBool _ => "boolean"
  | JNum _ => "number"
  | JStr _ => "string"
  | JArr _ | JObj _ => "object"
  end.

(** Number::toString, radix 10 (plain digits: the integers of the model are
    meant below 10^21 in absolute value). *)
Definition Number_toString (n : JsNumber) : string :=
  match n with
  | NaN => "NaN"
  | Infinity false => "Infinity"
  | Infinity true => "-Infinity"
  | Finite z => pretty z
  end.

(** ToString, as a template literal applies it.  An array joins its elements
    with a comma, undefined and null elements giving the empty string; a plain
    object gives [[object Object]]. *)
Fixpoint ToString (v : JsValue) : string :=
  match v with
  | JUndefined => "undefined"
  | JNull => "null"
  | JBool true => "true"
  | JBool false => "false"
  | JNum n => Number_toString n
  | JStr s => s
  | JArr l =>
      (fix join_elements (l : list JsValue) : string :=
         match l with
         | [] => EmptyString
         | x :: rest =>
             let here := match x with
                         | JUndefined | JNull => EmptyString
                         | _ => ToString x
                         end in
             match rest with
             | [] => here
             | _ => here +:+ "," +:+ join_elements rest
             end
         end) l
  | JObj _ => "[object Object]"
  end.

(** [a || b] *)
Definition js_or (a b : JsValue) : JsValue := if ToBoolean a then a else b.

(** [v !== false] *)
Definition strict_neq_false (v : JsValue) : bool :=
  match v with
  | JBool false => false
  | _ => true
  end.

(** ** Completions: a value, or a thrown error *)

Record JsError : Type := mkError { error_name : string; message : string }.

Inductive Completion (A : Type) : Type :=
  | Normal (value : A)
  | Throw (error : JsError).
Arguments Normal {A} value.
Arguments Throw {A} error.

#[global] Instance Completion_ret : MRet Completion := fun A x => Normal x.
#[global] Instance Completion_bind : MBind Completion := fun A B f m =>
  match m with
  | Normal x => f x
  | Throw e => Throw e
  end.
#[global] Instance Completion_fmap : FMap Completion := fun A B f m =>
  match m with
  | Normal x => Normal (f x)
  | Throw e => Throw e
  end.

Definition TypeError (msg : string) : JsError := mkError "TypeError" msg.

(** [v.toLowerCase()], where [expr] is the text of the receiver expression
    (V8 names it in the message).  Only a string has the method. *)
Definition call_toLowerCase (expr : string) (v : JsValue) : Completion string :=
  match v with
  | JStr s => Normal (toLowerCase s)
  | JUndefined | JNull =>
      Throw (TypeError ("Cannot read properties of " +:+ ToString v
                        +:+ " (reading 'toLowerCase')"))
  | _ => Throw (TypeError (expr +:+ ".toLowerCase is not a function"))
  end.

(** ** The document collection (data/content.json)

    A component carries its identifier and display label, the six optional
    text blocks and the opaque [videos] entry; an absent property reads as
    [JUndefined].  A category may lack its [children] array. *)

Record Component : Type := mkComponent {
  name : string;
  label : string;
  generalNotes : JsValue;
  gherkin : JsValue;
  condensed : JsValue;
  developerNotes : JsValue;
  androidDeveloperNotes : JsValue;
  iosDeveloperNotes : JsValue;
  videos : JsValue
}.

Record Category : Type := mkCategory {
  cat_name : string;
  cat_label : string;
  children : option (list Component)
}.

(** The parsed JSON object: platform key to its categories (own properties). *)
Abbreviation Content := (gmap string (list Category)).

(** [component[field]] for a property name [field]. *)
Definition Component_get (component : Component) (field : string) : JsValue :=
  if String.eqb field "name" then JStr (name component)
  else if String.eqb field "label" then JStr (label component)
  else if String.eqb field "generalNotes" then generalNotes component
  else if String.eqb field "gherkin" then gherkin component
  else if String.eqb field "condensed" then condensed component
  else if String.eqb field "developerNotes" then developerNotes component
  else if String.eqb field "androidDeveloperNotes" then androidDeveloperNotes component
  else if String.eqb field "iosDeveloperNotes" then iosDeveloperNotes component
  else if String.eqb field "videos" then videos component
  else JUndefined.

(** [{ ...component, category: category.label, categoryName: category.name }] *)
Record ResolvedComponent : Type := mkResolved {
  component : Component;
  category : string;
  categoryName : string
}.

(** The summaries [listComponents] pushes. *)
Record ComponentSummary : Type := mkSummary {
  sum_name : string;
  sum_label : string;
  sum_category : string;
  sum_categoryName : string
}.

(** The records [searchComponents] pushes. *)
Record ScoredMatch : Type := mkScored {
  sm_name : string;
  sm_label : string;
  sm_category : string;
  sm_categoryName : string;
  score : Z;
  matchedFields : list string;
  sm_generalNotes : JsValue
}.

Record Formats : Type := mkFormats {
  fmt_gherkin : bool;
  fmt_condensed : bool;
  fmt_developerNotes : bool;
  fmt_androidDeveloperNotes : bool;
  fmt_iosDeveloperNotes : bool;
  fmt_videos : bool;
  fmt_generalNotes : bool
}.

Record FormatReport : Type := mkReport {
  rep_name : string;
  rep_label : string;
  rep_category : string;
  formats : Formats
}.

Record CategoryInfo : Type := mkCategoryInfo {
  ci_name : string;
  ci_label : string;
  componentCount : nat
}.

(** The object [formatComponentOutput] builds; a property it does not set
    reads as [JUndefined]. *)
Record FormattedComponent : Type := mkFormatted {
  out_name : string;
  out_label : string;
  out_category : string;
  out_generalNotes : JsValue;
  out_gherkin : JsValue;
  out_condensed : JsValue;
  out_developerNotes : JsValue;
  out_androidDeveloperNotes : JsValue;
  out_iosDeveloperNotes : JsValue
}.

(** ** Built-ins taken from the host *)

Class Host : Type := mkHost {
  (** [a.localeCompare(b)]: negative, zero or positive. *)
  localeCompare : string -> string -> Z;
  (** The number of matches [subject.match(new RegExp(pattern, 'g'))] finds
      ([null] counting as none) for a pattern that holds a syntax character,
      or the SyntaxError the constructor throws. *)
  RegExp_engine : string -> string -> Completion nat;
  (** StringToNumber, the parser behind ToNumber on a string. *)
  StringToNumber : string -> JsNumber
}.

(** ** Regular expressions built from a string *)

Definition SyntaxCharacters : list ascii :=
  list_ascii_of_string "^$\.*+?()[]{}|".

Definition isSyntaxCharacter (c : ascii) : bool :=
  existsb (Ascii.eqb c) SyntaxCharacters.

(** A pattern all of whose characters are PatternCharacters matches exactly
    its own text. *)
Definition isLiteralPattern (pattern : string) : bool :=
  forallb (fun c => negb (isSyntaxCharacter c)) (list_ascii_of_string pattern).

(** RegExpBuiltinExec for a literal pattern, on the subject from [lastIndex]
    on: the first position at or after [lastIndex] where the pattern matches;
    the result is the subject from the match's end index on. *)
Fixpoint RegExpBuiltinExec (pattern subject : string) : option string :=
  if String.prefix pattern subject
  then Some (string_drop (String.length pattern) subject)
  else match subject with
       | EmptyString => None
       | String _ subject' => RegExpBuiltinExec pattern subject'
       end.

(** The loop of [RegExp.prototype[Symbol.match]] with the global flag: exec
    until it fails, an empty match advancing [lastIndex] by one. *)
Fixpoint match_loop (fuel : nat) (pattern subject : string) : nat :=
  match fuel with
  | O => O
  | S fuel' =>
      match RegExpBuiltinExec pattern subject with
      | None => O
      | Some rest =>
          if String.eqb pattern EmptyString
          then match rest with
               | EmptyString => 1%nat
               | String _ rest' => S (match_loop fuel' pattern rest')
               end
          else S (match_loop fuel' pattern rest)
      end
  end.

Section Helpers.

Context {host : Host}.
Variable contentData : Content.

(** [(subject.match(new RegExp(pattern, 'g')) || []).length] *)
Definition match_global_length (pattern subject : string) : Completion nat :=
  if isLiteralPattern pattern
  then Normal (match_loop (S (String.length subject)) pattern subject)
  else RegExp_engine pattern subject.

(** *** helpers.js *)

Definition loadContent : Content := contentData.

Definition summarize (cat : Category) (child : Component) : ComponentSummary :=
  mkSummary (name child) (label child) (cat_label cat) (cat_name cat).

(** The test [category && cat.name.toLowerCase() !== category.toLowerCase()]. *)
Definition filtered_out (category : JsValue) (cat : Category) : Completion bool :=
  if ToBoolean category
  then wanted ← call_toLowerCase "category" category;
       Normal (negb (String.eqb (toLowerCase (cat_name cat)) wanted))
  else Normal false.

(** The loop of [listComponents] over the categories of the platform. *)
Fixpoint listComponents_loop (category : JsValue) (cats : list Category)
    (components : list ComponentSummary) : Completion (list ComponentSummary) :=
  match cats with
  | [] => Normal components
  | cat :: cats' =>
      skip ← filtered_out category cat;
      if (skip : bool) then listComponents_loop category cats' components
      else match children cat with
           | Some cs =>
               listComponents_loop category cats'
                 (components ++ map (summarize cat) cs)
           | None => listComponents_loop category cats' components
           end
  end.

(** [listComponents(platform, category = null)] *)
Definition listComponents (platform : string) (category : JsValue)
  : Completion (list ComponentSummary) :=
  let category := match category with JUndefined => JNull | _ => category end in
  match loadContent !! platform with
  | None => Normal []
  | Some platformData => listComponents_loop category platformData []
  end.

Definition resolve (category : Category) (component : Component) : ResolvedComponent :=
  mkResolved component (cat_label category) (cat_name category).

(** The inner loop of a pass of [findComponent]: the first child that
    satisfies the test, resolved against its category. *)
Fixpoint scan_children (test : Component -> bool) (category : Category)
    (cs : list Component) : option ResolvedComponent :=
  match cs with
  | [] => None
  | component :: cs' =>
      if test component then Some (resolve category component)
      else scan_children test category cs'
  end.

(** The outer loop of a pass: categories in stored order, one without
    children skipped. *)
Fixpoint scan_categories (test : Component -> bool) (platformData : list Category)
  : option ResolvedComponent :=
  match platformData with
  | [] => None
  | category :: rest =>
      match children category with
      | Some cs =>
          match scan_children test category cs with
          | Some found => Some found
          | None => scan_categories test rest
          end
      | None => scan_categories test rest
      end
  end.

Definition exact_test (normalizedName : string) (component : Component) : bool :=
  String.eqb (toLowerCase (name component)) normalizedName.

Definition partial_test (normalizedName : string) (component : Component) : bool :=
  includes (toLowerCase (name component)) normalizedName
  || includes (toLowerCase (label component)) normalizedName.

(** [findComponent(platform, componentName)]; [None] is [null]. *)
Definition findComponent (platform : string) (componentName : JsValue)
  : Completion (option ResolvedComponent) :=
  match loadContent !! platform with
  | None => Normal None
  | Some platformData =>
      lowered ← call_toLowerCase "componentName" componentName;
      let normalizedName := trim lowered in
      match scan_categories (exact_test normalizedName) platformData with
      | Some found => Normal (Some found)
      | None => Normal (scan_categories (partial_test normalizedName) platformData)
      end
  end.

(** The fields [searchComponents] reads, with their weights. *)
Definition searchFields : list (string * Z) :=
  [ ("label", 10); ("name", 10); ("generalNotes", 5); ("gherkin", 3);
    ("condensed", 3); ("developerNotes", 2); ("androidDeveloperNotes", 2);
    ("iosDeveloperNotes", 2) ].

Fixpoint foldM {A B : Type} (f : A -> B -> Completion A) (acc : A) (l : list B)
  : Completion A :=
  match l with
  | [] => Normal acc
  | x :: l' => acc' ← f acc x; foldM f acc' l'
  end.

(** One turn of the loop over [searchFields]: [acc] is [(score, matches)]. *)
Definition score_field (normalizedQuery : string) (component : Component)
    (acc : Z * list string) (fw : string * Z) : Completion (Z * list string) :=
  let value := Component_get component fw.1 in
  if ToBoolean value && String.eqb (typeof value) "string"
  then lowerValue ← call_toLowerCase "value" value;
       if includes lowerValue normalizedQuery
       then occurrences ← match_global_length normalizedQuery lowerValue;
            Normal (acc.1 + fw.2 + (Z.of_nat occurrences - 1), acc.2 ++ [fw.1])
       else Normal acc
  else Normal acc.

Fixpoint search_children (normalizedQuery : string) (category : Category)
    (cs : list Component) (results : list ScoredMatch)
  : Completion (list ScoredMatch) :=
  match cs with
  | [] => Normal results
  | component :: cs' =>
      scored ← foldM (score_field normalizedQuery component) (0, []) searchFields;
      search_children normalizedQuery category cs'
        (if 0 <? scored.1
         then (results ++ [mkScored (name component) (label component)
                             (cat_label category) (cat_name category)
                             scored.1 scored.2 (generalNotes component)])
         else results)
  end.

Fixpoint search_categories (normalizedQuery : string) (platformData : list Category)
    (results : list ScoredMatch) : Completion (list ScoredMatch) :=
  match platformData with
  | [] => Normal results
  | category :: rest =>
      match children category with
      | Some cs =>
          results' ← search_children normalizedQuery category cs results;
          search_categories normalizedQuery rest results'
      | None => search_categories normalizedQuery rest results
      end
  end.

(** The comparator handed to [results.sort]. *)
Definition compare_results (a b : ScoredMatch) : Z :=
  if negb (score b =? score a) then score b - score a
  else localeCompare (sm_name a) (sm_name b).

(** [Array.prototype.sort] is stable, and with a consistent comparator (a
    total preorder) its result is fixed by the comparator alone, whatever
    algorithm the engine runs; it is written as a stable insertion sort. *)
Fixpoint sort_insert {A : Type} (comparefn : A -> A -> Z) (x : A) (sorted : list A)
  : list A :=
  match sorted with
  | [] => [x]
  | y :: rest =>
      if comparefn x y <=? 0 then x :: sorted
      else y :: sort_insert comparefn x rest
  end.

Definition Array_sort {A : Type} (comparefn : A -> A -> Z) (l : list A) : list A :=
  foldr (sort_insert comparefn) [] l.

Definition ToNumber (v : JsValue) : JsNumber :=
  match v with
  | JUndefined => NaN
  | JNull => Finite 0
  | JBool b => Finite (if b then 1 else 0)
  | JNum n => n
  | JStr s => StringToNumber s
  | JArr _ | JObj _ => StringToNumber (ToString v)
  end.

Definition ToIntegerOrInfinity (n : JsNumber) : JsNumber :=
  match n with
  | NaN => Finite 0
  | _ => n
  end.

(** [l.slice(0, end)]: a negative [end] counts from the end of the array. *)
Definition Array_slice_0 {A : Type} (end_ : JsValue) (l : list A) : list A :=
  let len := Z.of_nat (length l) in
  let final :=
    match end_ with
    | JUndefined => len
    | _ =>
        match ToIntegerOrInfinity (ToNumber end_) with
        | Infinity true => 0
        | Infinity false => len
        | Finite relativeEnd =>
            if relativeEnd <? 0 then Z.max (len + relativeEnd) 0
            else Z.min relativeEnd len
        | NaN => 0
        end
    end in
  take (Z.to_nat final) l.

(** [searchComponents(platform, query, maxResults = 10)] *)
Definition searchComponents (platform : string) (query maxResults : JsValue)
  : Completion (list ScoredMatch) :=
  let maxResults :=
    match maxResults with JUndefined => JNum (Finite 10) | _ => maxResults end in
  match loadContent !! platform with
  | None => Normal []
  | Some platformData =>
      if negb (ToBoolean query) then Normal []
      else
        lowered ← call_toLowerCase "query" query;
        let normalizedQuery := trim lowered in
        results ← search_categories normalizedQuery platformData [];
        Normal (Array_slice_0 maxResults (Array_sort compare_results results))
  end.

(** [listComponentFormats(platform, componentName)] *)
Definition listComponentFormats (platform : string) (componentName : JsValue)
  : Completion (option FormatReport) :=
  found ← findComponent platform componentName;
  match found with
  | None => Normal None
  | Some c =>
      Normal (Some (mkReport (name (component c)) (label (component c)) (category c)
        (mkFormats
           (ToBoolean (gherkin (component c)))
           (ToBoolean (condensed (component c)))
           (ToBoolean (developerNotes (component c)))
           (ToBoolean (androidDeveloperNotes (component c)))
           (ToBoolean (iosDeveloperNotes (component c)))
           (ToBoolean (videos (component c)))
           (ToBoolean (generalNotes (component c))))))
  end.

(** [formatComponentOutput(component, includeCodeExamples = true)] *)
Definition formatComponentOutput (component_ : option ResolvedComponent)
    (includeCodeExamples : JsValue) : option FormattedComponent :=
  let includeCodeExamples :=
    match includeCodeExamples with JUndefined => JBool true | _ => includeCodeExamples end in
  match component_ with
  | None => None
  | Some c =>
      let keep (v : JsValue) := if ToBoolean v then v else JUndefined in
      Some (mkFormatted (name (component c)) (label (component c)) (category c)
              (js_or (generalNotes (component c)) JNull)
              (keep (gherkin (component c)))
              (keep (condensed (component c)))
              (if ToBoolean includeCodeExamples
               then keep (developerNotes (component c)) else JUndefined)
              (keep (androidDeveloperNotes (component c)))
              (keep (iosDeveloperNotes (component c))))
  end.

(** [listCategories(platform)] *)
Definition listCategories (platform : string) : list CategoryInfo :=
  match loadContent !! platform with
  | None => []
  | Some platformData =>
      map (fun cat => mkCategoryInfo (cat_name cat) (cat_label cat)
                        (match children cat with
                         | Some cs => length cs
                         | None => O
                         end)) platformData
  end.

End Helpers.

(** ** tools.js *)

Record ContentItem : Type := mkItem { type_ : string; text : string }.
Record Response : Type := mkResponse { content : list ContentItem }.

Definition textResponse (text : string) : Response :=
  mkResponse [ mkItem "text" text ].

(** [args.key]: a property the arguments object lacks reads as undefined. *)
Definition prop (args : gmap string JsValue) (key : string) : JsValue :=
  default JUndefined (args !! key).

Fixpoint filterM {A : Type} (f : A -> Completion bool) (l : list A)
  : Completion (list A) :=
  match l with
  | [] => Normal []
  | x :: l' =>
      keep ← f x;
      rest ← filterM f l';
      Normal (if (keep : bool) then x :: rest else rest)
  end.

(** [try { body } catch (error) { return textResponse(prefix + error.message) }] *)
Definition try_catch (prefix : string) (body : Completion Response) : Response :=
  match body with
  | Normal response => response
  | Throw error => textResponse (prefix +:+ message error)
  end.

(** The callback of the "did you mean" filter. *)
Definition suggestion_test (wanted : JsValue) (c : ComponentSummary) : Completion bool :=
  needle ← call_toLowerCase "args.component" wanted;
  Normal (includes (sum_name c) needle || includes (toLowerCase (sum_label c)) needle).

Definition suggestion_line (s : ComponentSummary) : string :=
  "- " +:+ sum_label s +:+ " (`" +:+ sum_name s +:+ "`)".

Definition not_found_message (opening : string) (wanted : JsValue)
    (suggestions : list ComponentSummary) : string :=
  let msg := opening +:+ dquote +:+ ToString wanted +:+ dquote +:+ " not found." in
  if (0 <? length suggestions)%nat
  then msg +:+ nl +:+ nl +:+ "Did you mean:" +:+ nl
       +:+ join nl (map suggestion_line suggestions)
  else msg.

(** The two status marks of [list_component_formats], U+2705 and U+274C,
    as the bytes of their UTF-8 encoding. *)
Definition available_mark : string :=
  String "226"%char (String "156"%char (String "133"%char EmptyString)).
Definition missing_mark : string :=
  String "226"%char (String "157"%char (String "140"%char EmptyString)).

(** [cond ? text : empty], for the [if (x) output += ...] steps. *)
Definition when (cond : bool) (text : string) : string :=
  if cond then text else EmptyString.

Section Tools.

Context {host : Host}.
Variable contentData : Content.

Definition null_read (property : string) : JsError :=
  TypeError ("Cannot read properties of null (reading '" +:+ property +:+ "')").

(** The handler of [get_web_component]. *)
Definition get_web_component (args : gmap string JsValue) : Response :=
  try_catch "Error getting component: "
    (component ← findComponent contentData "web" (prop args "component");
     match component with
     | None =>
         allComponents ← listComponents contentData "web" JUndefined;
         matching ← filterM (suggestion_test (prop args "component")) allComponents;
         Normal (textResponse
                   (not_found_message "Component " (prop args "component")
                      (take 5 matching)))
     | Some _ =>
         let includeCode := strict_neq_false (prop args "include_code_examples") in
         match formatComponentOutput component (JBool includeCode) with
         | None => Throw (null_read "label")
         | Some formatted =>
             Normal (textResponse
               ("# " +:+ out_label formatted +:+ nl +:+ nl
                +:+ "**Category:** " +:+ out_category formatted +:+ nl
                +:+ "**Component ID:** `" +:+ out_name formatted +:+ "`" +:+ nl +:+ nl
                +:+ when (ToBoolean (out_generalNotes formatted))
                      ("## Overview" +:+ nl
                       +:+ ToString (out_generalNotes formatted) +:+ nl +:+ nl)
                +:+ when (ToBoolean (out_condensed formatted))
                      ("## Condensed Criteria" +:+ nl
                       +:+ ToString (out_condensed formatted) +:+ nl +:+ nl)
                +:+ when (ToBoolean (out_gherkin formatted))
                      ("## Gherkin Acceptance Criteria" +:+ nl
                       +:+ ToString (out_gherkin formatted) +:+ nl +:+ nl)
                +:+ when (includeCode && ToBoolean (out_developerNotes formatted))
                      ("## Developer Notes & Code Examples" +:+ nl
                       +:+ ToString (out_developerNotes formatted) +:+ nl)))
         end
     end).

(** The handler of [get_native_component]. *)
Definition get_native_component (args : gmap string JsValue) : Response :=
  try_catch "Error getting native component: "
    (found ← findComponent contentData "native" (prop args "component");
     match found with
     | None =>
         allComponents ← listComponents contentData "native" JUndefined;
         matching ← filterM (suggestion_test (prop args "component")) allComponents;
         Normal (textResponse
                   (not_found_message "Native component " (prop args "component")
                      (take 5 matching)))
     | Some c =>
         let includeCode := strict_neq_false (prop args "include_code_examples") in
         Normal (textResponse
           ("# " +:+ label (component c) +:+ " (Native)" +:+ nl +:+ nl
            +:+ "**Category:** " +:+ category c +:+ nl
            +:+ "**Component ID:** `" +:+ name (component c) +:+ "`" +:+ nl +:+ nl
            +:+ when (ToBoolean (generalNotes (component c)))
                  ("## Overview" +:+ nl
                   +:+ ToString (generalNotes (component c)) +:+ nl +:+ nl)
            +:+ when (ToBoolean (condensed (component c)))
                  ("## Condensed Criteria" +:+ nl
                   +:+ ToString (condensed (component c)) +:+ nl +:+ nl)
            +:+ when (ToBoolean (gherkin (component c)))
                  ("## Gherkin Acceptance Criteria" +:+ nl
                   +:+ ToString (gherkin (component c)) +:+ nl +:+ nl)
            +:+ when includeCode
                  (when (ToBoolean (iosDeveloperNotes (component c)))
                     ("## iOS Developer Notes (VoiceOver)" +:+ nl
                      +:+ ToString (iosDeveloperNotes (component c)) +:+ nl +:+ nl)
                   +:+ when (ToBoolean (androidDeveloperNotes (component c)))
                         ("## Android Developer Notes (TalkBack)" +:+ nl
                          +:+ ToString (androidDeveloperNotes (component c)) +:+ nl +:+ nl)
                   +:+ when (ToBoolean (developerNotes (component c)))
                         ("## General Developer Notes" +:+ nl
                          +:+ ToString (developerNotes (component c)) +:+ nl))))
     end).

(** One entry of a search listing. *)
Definition result_entry (result : ScoredMatch) : string :=
  "## " +:+ sm_label result +:+ " (`" +:+ sm_name result +:+ "`)" +:+ nl
  +:+ "**Category:** " +:+ sm_category result +:+ nl
  +:+ "**Matched in:** " +:+ join ", " (matchedFields result) +:+ nl
  +:+ when (ToBoolean (sm_generalNotes result))
        ("**Overview:** " +:+ ToString (sm_generalNotes result) +:+ nl)
  +:+ nl.

Definition concat_strings (parts : list string) : string :=
  foldr String.append EmptyString parts.

(** What both search handlers do once [searchComponents] has returned. *)
Definition search_report (none_tail heading : string) (query : JsValue)
    (results : list ScoredMatch) : Response :=
  if (length results =? 0)%nat
  then textResponse ("No results found for " +:+ dquote +:+ ToString query +:+ dquote
                     +:+ none_tail)
  else textResponse (heading +:+ dquote +:+ ToString query +:+ dquote +:+ " ("
                     +:+ pretty (length results) +:+ " matches)" +:+ nl +:+ nl
                     +:+ concat_strings (map result_entry results)).

(** The handler of [search_web_criteria]. *)
Definition search_web_criteria (args : gmap string JsValue) : Response :=
  try_catch "Error searching web criteria: "
    (let maxResults := js_or (prop args "max_results") (JNum (Finite 10)) in
     results ← searchComponents contentData "web" (prop args "query") maxResults;
     Normal (search_report " in web accessibility criteria." "# Search Results for "
               (prop args "query") results)).

(** The handler of [search_native_criteria]. *)
Definition search_native_criteria (args : gmap string JsValue) : Response :=
  try_catch "Error searching native criteria: "
    (let maxResults := js_or (prop args "max_results") (JNum (Finite 10)) in
     results ← searchComponents contentData "native" (prop args "query") maxResults;
     Normal (search_report " in native accessibility criteria."
               "# Native Search Results for " (prop args "query") results)).

(** [content[args.platform]] is indexed by the property key ToString gives. *)
Definition platform_key (args : gmap string JsValue) : string :=
  ToString (prop args "platform").

(** The handler of [get_component_gherkin]. *)
Definition get_component_gherkin (args : gmap string JsValue) : Response :=
  try_catch "Error getting Gherkin criteria: "
    (found ← findComponent contentData (platform_key args) (prop args "component");
     match found with
     | None =>
         Normal (textResponse
           ("Component " +:+ dquote +:+ ToString (prop args "component") +:+ dquote
            +:+ " not found for platform " +:+ dquote
            +:+ ToString (prop args "platform") +:+ dquote +:+ "."))
     | Some c =>
         if negb (ToBoolean (gherkin (component c)))
         then Normal (textResponse
                ("No Gherkin criteria available for " +:+ dquote
                 +:+ label (component c) +:+ dquote +:+ "."))
         else Normal (textResponse
                ("# Gherkin Acceptance Criteria: " +:+ label (component c) +:+ nl +:+ nl
                 +:+ "**Platform:** " +:+ ToString (prop args "platform") +:+ nl
                 +:+ "**Category:** " +:+ category c +:+ nl +:+ nl
                 +:+ ToString (gherkin (component c))))
     end).

(** The handler of [get_component_condensed]. *)
Definition get_component_condensed (args : gmap string JsValue) : Response :=
  try_catch "Error getting condensed criteria: "
    (found ← findComponent contentData (platform_key args) (prop args "component");
     match found with
     | None =>
         Normal (textResponse
           ("Component " +:+ dquote +:+ ToString (prop args "component") +:+ dquote
            +:+ " not found for platform " +:+ dquote
            +:+ ToString (prop args "platform") +:+ dquote +:+ "."))
     | Some c =>
         if negb (ToBoolean (condensed (component c)))
         then Normal (textResponse
                ("No condensed criteria available for " +:+ dquote
                 +:+ label (component c) +:+ dquote +:+ "."))
         else Normal (textResponse
                ("# Condensed Acceptance Criteria: " +:+ label (component c)
                 +:+ nl +:+ nl
                 +:+ "**Platform:** " +:+ ToString (prop args "platform") +:+ nl
                 +:+ "**Category:** " +:+ category c +:+ nl +:+ nl
                 +:+ ToString (condensed (component c))))
     end).

(** [args.platform === text] *)
Definition strict_eq_string (v : JsValue) (text : string) : bool :=
  match v with
  | JStr s => String.eqb s text
  | _ => false
  end.

(** The handler of [get_component_developer_notes]. *)
Definition get_component_developer_notes (args : gmap string JsValue) : Response :=
  try_catch "Error getting developer notes: "
    (found ← findComponent contentData (platform_key args) (prop args "component");
     match found with
     | None =>
         Normal (textResponse
           ("Component " +:+ dquote +:+ ToString (prop args "component") +:+ dquote
            +:+ " not found for platform " +:+ dquote
            +:+ ToString (prop args "platform") +:+ dquote +:+ "."))
     | Some c =>
         let native := strict_eq_string (prop args "platform") "native" in
         let general := ToBoolean (developerNotes (component c)) in
         let ios := native && ToBoolean (iosDeveloperNotes (component c)) in
         let android := native && ToBoolean (androidDeveloperNotes (component c)) in
         if negb (general || ios || android)
         then Normal (textResponse
                ("No developer notes available for " +:+ dquote
                 +:+ label (component c) +:+ dquote +:+ "."))
         else Normal (textResponse
                ("# Developer Notes: " +:+ label (component c) +:+ nl +:+ nl
                 +:+ "**Platform:** " +:+ ToString (prop args "platform") +:+ nl
                 +:+ "**Category:** " +:+ category c +:+ nl +:+ nl
                 +:+ when general
                       ("## General Developer Notes" +:+ nl
                        +:+ ToString (developerNotes (component c)) +:+ nl +:+ nl)
                 +:+ when ios
                       ("## iOS Developer Notes" +:+ nl
                        +:+ ToString (iosDeveloperNotes (component c)) +:+ nl +:+ nl)
                 +:+ when android
                       ("## Android Developer Notes" +:+ nl
                        +:+ ToString (androidDeveloperNotes (component c))
                        +:+ nl +:+ nl)))
     end).

(** The handler of [get_component_native_notes]. *)
Definition get_component_native_notes (args : gmap string JsValue) : Response :=
  try_catch "Error getting native notes: "
    (found ← findComponent contentData "native" (prop args "component");
     match found with
     | None =>
         Normal (textResponse
           ("Native component " +:+ dquote +:+ ToString (prop args "component")
            +:+ dquote +:+ " not found."))
     | Some c =>
         let ios := strict_eq_string (prop args "platform") "ios" in
         let platformName := if ios then "iOS" else "Android" in
         let notes := if ios then iosDeveloperNotes (component c)
                      else androidDeveloperNotes (component c) in
         if negb (ToBoolean notes)
         then Normal (textResponse
                ("No " +:+ platformName +:+ " developer notes available for "
                 +:+ dquote +:+ label (component c) +:+ dquote +:+ "."))
         else Normal (textResponse
                ("# " +:+ platformName +:+ " Developer Notes: "
                 +:+ label (component c) +:+ nl +:+ nl
                 +:+ "**Component:** " +:+ name (component c) +:+ nl
                 +:+ "**Category:** " +:+ category c +:+ nl +:+ nl
                 +:+ ToString notes))
     end).

(** [Object.entries(formats.formats)], each flag with its description. *)
Definition format_entries (f : Formats) : list (string * bool * string) :=
  [ ("gherkin", fmt_gherkin f,
     "Gherkin-style acceptance criteria (Given/When/Then)");
    ("condensed", fmt_condensed f,
     "Condensed acceptance criteria (quick reference)");
    ("developerNotes", fmt_developerNotes f,
     "Developer implementation notes with code examples");
    ("androidDeveloperNotes", fmt_androidDeveloperNotes f,
     "Android-specific developer notes (TalkBack)");
    ("iosDeveloperNotes", fmt_iosDeveloperNotes f,
     "iOS-specific developer notes (VoiceOver)");
    ("videos", fmt_videos f, "Demo videos");
    ("generalNotes", fmt_generalNotes f, "General overview notes") ].

(** The handler of [list_component_formats]. *)
Definition list_component_formats (args : gmap string JsValue) : Response :=
  try_catch "Error listing formats: "
    (report ← listComponentFormats contentData (platform_key args)
                (prop args "component");
     match report with
     | None =>
         Normal (textResponse
           ("Component " +:+ dquote +:+ ToString (prop args "component") +:+ dquote
            +:+ " not found for platform " +:+ dquote
            +:+ ToString (prop args "platform") +:+ dquote +:+ "."))
     | Some formats_ =>
         Normal (textResponse
           ("# Available Formats: " +:+ rep_label formats_ +:+ nl +:+ nl
            +:+ "**Platform:** " +:+ ToString (prop args "platform") +:+ nl
            +:+ "**Category:** " +:+ rep_category formats_ +:+ nl
            +:+ "**Component ID:** `" +:+ rep_name formats_ +:+ "`" +:+ nl +:+ nl
            +:+ "## Available Content Formats" +:+ nl +:+ nl
            +:+ concat_strings
                  (map (fun entry : string * bool * string =>
                          (if entry.1.2 then available_mark else missing_mark)
                          +:+ " **" +:+ entry.1.1 +:+ "**: " +:+ entry.2 +:+ nl)
                     (format_entries (formats formats_)))))
     end).

End Tools.

(** *** The two listing handlers of tools.js

    The handlers collect the summaries in an object [grouped], keyed by the
    category label.  The object is written as its own properties in creation
    order; a key it lacks is looked up on [Object.prototype], and
    [Object.entries] yields the array-index keys first, in ascending order,
    then the other keys in creation order. *)

Definition Object_prototype_names : list string :=
  [ "constructor"; "__defineGetter__"; "__defineSetter__"; "hasOwnProperty";
    "__lookupGetter__"; "__lookupSetter__"; "isPrototypeOf";
    "propertyIsEnumerable"; "toString"; "valueOf"; "__proto__"; "toLocaleString" ].

Definition digit_value (c : ascii) : option N :=
  let n := N_of_ascii c in
  if ((48 <=? n) && (n <=? 57))%N then Some (n - 48)%N else None.

Fixpoint digits_value (acc : N) (s : string) : option N :=
  match s with
  | EmptyString => Some acc
  | String c s' =>
      match digit_value c with
      | Some d => digits_value (acc * 10 + d)%N s'
      | None => None
      end
  end.

(** The key is an array index: decimal digits with no leading zero, the value
    at most 2^32 - 2. *)
Definition array_index (key : string) : option N :=
  match key with
  | EmptyString => None
  | String c rest =>
      if Ascii.eqb c "0"%char && negb (String.eqb rest EmptyString) then None
      else match digits_value 0 key with
           | Some n => if (n <=? 4294967294)%N then Some n else None
           | None => None
           end
  end.

Inductive PropertyLookup (A : Type) : Type :=
  | Own (value : A)
  | Inherited
  | Missing.
Arguments Own {A} value.
Arguments Inherited {A}.
Arguments Missing {A}.

Fixpoint own_property {A : Type} (object : list (string * A)) (key : string)
  : option A :=
  match object with
  | [] => None
  | (k, v) :: rest => if String.eqb k key then Some v else own_property rest key
  end.

(** [grouped[key]] on an object created by [{}]. *)
Definition object_get {A : Type} (object : list (string * A)) (key : string)
  : PropertyLookup A :=
  match own_property object key with
  | Some v => Own v
  | None =>
      if existsb (String.eqb key) Object_prototype_names then Inherited else Missing
  end.

(** [grouped[key].push(comp)] for an own key. *)
Fixpoint push_to {A : Type} (object : list (string * list A)) (key : string) (x : A)
  : list (string * list A) :=
  match object with
  | [] => []
  | (k, v) :: rest =>
      if String.eqb k key then (k, v ++ [x]) :: rest
      else (k, v) :: push_to rest key x
  end.

(** One turn of the grouping loop: create the array where the key reads as
    falsy, then push.  An inherited property is truthy and has no [push]. *)
Definition group_step (grouped : list (string * list ComponentSummary))
    (comp : ComponentSummary) : Completion (list (string * list ComponentSummary)) :=
  match object_get grouped (sum_category comp) with
  | Missing => Normal (grouped ++ [(sum_category comp, [comp])])
  | Own _ => Normal (push_to grouped (sum_category comp) comp)
  | Inherited => Throw (TypeError "grouped[comp.category].push is not a function")
  end.

Fixpoint insert_by_index {A : Type} (i : N) (entry : string * A)
    (sorted : list (N * (string * A))) : list (N * (string * A)) :=
  match sorted with
  | [] => [(i, entry)]
  | (j, e) :: rest =>
      if (i <=? j)%N then (i, entry) :: sorted
      else (j, e) :: insert_by_index i entry rest
  end.

(** The own properties whose key is an array index, in ascending order. *)
Fixpoint index_entries {A : Type} (object : list (string * A))
  : list (N * (string * A)) :=
  match object with
  | [] => []
  | entry :: rest =>
      match array_index entry.1 with
      | Some i => insert_by_index i entry (index_entries rest)
      | None => index_entries rest
      end
  end.

Definition is_array_index (key : string) : bool :=
  match array_index key with
  | Some _ => true
  | None => false
  end.

(** [Object.entries(object)] *)
Definition Object_entries {A : Type} (object : list (string * A))
  : list (string * A) :=
  map snd (index_entries object)
  ++ List.filter (fun entry => negb (is_array_index entry.1)) object.

Definition component_line (comp : ComponentSummary) : string :=
  "- **" +:+ sum_label comp +:+ "** (`" +:+ sum_name comp +:+ "`)" +:+ nl.

(** The lines one entry of [grouped] adds to the output. *)
Definition group_text (entry : string * list ComponentSummary) : string :=
  "## " +:+ entry.1 +:+ nl
  +:+ concat_strings (map component_line entry.2)
  +:+ nl.

Definition category_line (c : CategoryInfo) : string :=
  "- " +:+ ci_label c +:+ " (" +:+ ci_name c +:+ "): "
  +:+ pretty (componentCount c) +:+ " components".

(** The answer to a category filter that selects no component. *)
Definition no_components_in_category (wanted : JsValue)
    (categories : list CategoryInfo) : string :=
  "No components found in category " +:+ dquote +:+ ToString wanted +:+ dquote
  +:+ "." +:+ nl +:+ nl +:+ "Available categories:" +:+ nl
  +:+ join nl (map category_line categories).

Section Listings.

Variable contentData : Content.

(** The handler of [list_web_components]. *)
Definition list_web_components (args : gmap string JsValue) : Response :=
  try_catch "Error listing web components: "
    (components ← listComponents contentData "web" (prop args "category");
     if (length components =? 0)%nat
     then if ToBoolean (prop args "category")
          then Normal (textResponse
                 (no_components_in_category (prop args "category")
                    (listCategories contentData "web")))
          else Normal (textResponse "No web components found.")
     else
       grouped ← foldM group_step [] components;
       Normal (textResponse
         ("# Web Accessibility Components (" +:+ pretty (length components)
          +:+ " total)" +:+ nl +:+ nl
          +:+ concat_strings (map group_text (Object_entries grouped))))).

(** The handler of [list_native_components]. *)
Definition list_native_components (args : gmap string JsValue) : Response :=
  try_catch "Error listing native components: "
    (components ← listComponents contentData "native" (prop args "category");
     if (length components =? 0)%nat
     then if ToBoolean (prop args "category")
          then Normal (textResponse
                 (no_components_in_category (prop args "category")
                    (listCategories contentData "native")))
          else Normal (textResponse "No native components found.")
     else
       grouped ← foldM group_step [] components;
       Normal (textResponse
         ("# Native Accessibility Components (" +:+ pretty (length components)
          +:+ " total)" +:+ nl +:+ nl
          +:+ "*For iOS (VoiceOver) and Android (TalkBack)*" +:+ nl +:+ nl
          +:+ concat_strings (map group_text (Object_entries grouped))))).

End Listings.

(** ** netlify/functions/api.js: JSON-RPC over HTTP

    A request is the value [JSON.parse] returned.  [JSON.parse] and
    [JSON.stringify] are parameters, and so is the table [tools] the module
    imports.  [createServer] registers two handlers on an SDK object that
    [handleJsonRpcRequest] never reads; the one for tool calls is [CallTool],
    the SDK object itself is left out. *)

(** [value.key], for the keys this module reads (none of them is a property
    of a built-in prototype).  An object lists each own key once. *)
Definition get_property (value : JsValue) (key : string) : Completion JsValue :=
  match value with
  | JUndefined | JNull =>
      Throw (TypeError ("Cannot read properties of " +:+ ToString value
                        +:+ " (reading '" +:+ key +:+ "')"))
  | JObj properties => Normal (default JUndefined (own_property properties key))
  | _ => Normal JUndefined
  end.

Record Tool : Type := mkTool {
  tool_name : string;
  tool_description : string;
  tool_inputSchema : JsValue;
  tool_handler : JsValue -> Completion JsValue
}.

(** [{ content: [{ type: 'text', text }] }] as a value. *)
Definition Response_value (r : Response) : JsValue :=
  JObj [("content",
         JArr (map (fun item => JObj [("type", JStr (type_ item));
                                      ("text", JStr (text item))])
                 (content r)))].

(** src/tools.js of the project template: [echo] and [get-greeting]. *)
Module Template.

Definition echo : Tool :=
  mkTool "echo" "Echoes back the provided message"
    (JObj [("type", JStr "object");
           ("properties",
            JObj [("message", JObj [("type", JStr "string");
                                    ("description", JStr "Message to echo back")])]);
           ("required", JArr [JStr "message"])])
    (fun args =>
       message_ ← get_property args "message";
       Normal (Response_value (textResponse ("Echo: " +:+ ToString message_)))).

Definition get_greeting : Tool :=
  mkTool "get-greeting" "Returns a personalized greeting"
    (JObj [("type", JStr "object");
           ("properties",
            JObj [("name", JObj [("type", JStr "string");
                                 ("description", JStr "Name to greet")])]);
           ("required", JArr [JStr "name"])])
    (fun args =>
       name_ ← get_property args "name";
       Normal (Response_value
                 (textResponse ("Hello, " +:+ ToString name_
                                +:+ "! Welcome to test-mcp-hatchery-build.")))).

Definition tools : list Tool := [echo; get_greeting].

End Template.

Definition mkJsError (msg : string) : JsError := mkError "Error" msg.

(** [{ name, description, inputSchema }] of a tool. *)
Definition tool_info (tool : Tool) : JsValue :=
  JObj [("name", JStr (tool_name tool));
        ("description", JStr (tool_description tool));
        ("inputSchema", tool_inputSchema tool)].

Definition initialize_result : JsValue :=
  JObj [("protocolVersion", JStr "2024-11-05");
        ("capabilities", JObj [("tools", JObj [])]);
        ("serverInfo", JObj [("name", JStr "magentaa11y-mcp");
                             ("version", JStr "1.0.0")])].

Definition rpc_result (id result : JsValue) : JsValue :=
  JObj [("jsonrpc", JStr "2.0"); ("id", id); ("result", result)].

Definition rpc_error (id : JsValue) (code : Z) (msg : string) : JsValue :=
  JObj [("jsonrpc", JStr "2.0"); ("id", id);
        ("error", JObj [("code", JNum (Finite code)); ("message", JStr msg)])].

(** The message of the TypeError that destructuring null or undefined
    raises. *)
Definition cannot_destructure (request : JsValue) : string :=
  "Cannot destructure property 'method' of 'request' as it is "
  +:+ ToString request +:+ ".".

Record HttpEvent : Type := mkEvent { httpMethod : JsValue; body : JsValue }.

Record HttpResponse : Type := mkHttp {
  statusCode : Z;
  headers : list (string * string);
  response_body : string
}.

Definition corsHeaders : list (string * string) :=
  [ ("Access-Control-Allow-Origin", "*");
    ("Access-Control-Allow-Methods", "GET, POST, OPTIONS");
    ("Access-Control-Allow-Headers", "Content-Type, Accept, Mcp-Session-Id") ].

Definition jsonHeaders : list (string * string) :=
  corsHeaders ++ [("Content-Type", "application/json")].

Section Api.

Variable tools : list Tool.
Variable JSON_parse : string -> Completion JsValue.
Variable JSON_stringify : JsValue -> string.

(** [tools.find(t => t.name === name)] *)
Definition find_tool (name_ : JsValue) : option Tool :=
  List.find (fun t => strict_eq_string name_ (tool_name t)) tools.

(** The handler [createServer] registers for [CallToolRequestSchema]. *)
Definition CallTool (request : JsValue) : Completion JsValue :=
  params ← get_property request "params";
  name_ ← get_property params "name";
  match find_tool name_ with
  | None => Throw (mkJsError ("Unknown tool: " +:+ ToString name_))
  | Some tool =>
      arguments ← get_property params "arguments";
      tool_handler tool arguments
  end.

(** The body of the [try] block of [handleJsonRpcRequest]: the result, or
    [None] where the function returns null. *)
Definition rpc_dispatch (method params : JsValue) : Completion (option JsValue) :=
  if strict_eq_string method "initialize" then Normal (Some initialize_result)
  else if strict_eq_string method "tools/list"
  then Normal (Some (JObj [("tools", JArr (map tool_info tools))]))
  else if strict_eq_string method "tools/call"
  then name_ ← get_property params "name";
       match find_tool name_ with
       | None => Throw (mkJsError ("Unknown tool: " +:+ ToString name_))
       | Some tool =>
           arguments ← get_property params "arguments";
           result ← tool_handler tool (js_or arguments (JObj []));
           Normal (Some result)
       end
  else if strict_eq_string method "notifications/initialized" then Normal None
  else if strict_eq_string method "ping" then Normal (Some (JObj []))
  else Throw (mkJsError ("Unknown method: " +:+ ToString method)).

(** [handleJsonRpcRequest(server, request)]; the destructuring of the
    request stands before the [try]. *)
Definition handleJsonRpcRequest (request : JsValue) : Completion JsValue :=
  match request with
  | JUndefined | JNull => Throw (TypeError (cannot_destructure request))
  | _ =>
      method ← get_property request "method";
      params ← get_property request "params";
      id ← get_property request "id";
      match rpc_dispatch method params with
      | Normal (Some result) => Normal (rpc_result id result)
      | Normal None => Normal JNull
      | Throw error => Normal (rpc_error id (-32603) (message error))
      end
  end.

(** The loop of [handler] over a batch: the responses that are not null. *)
Fixpoint batch_responses (requests responses : list JsValue)
  : Completion (list JsValue) :=
  match requests with
  | [] => Normal responses
  | req :: rest =>
      response ← handleJsonRpcRequest req;
      batch_responses rest
        (match response with
         | JNull => responses
         | _ => responses ++ [response]
         end)
  end.

(** [handler(event, context)] *)
Definition handler (event : HttpEvent) : HttpResponse :=
  if strict_eq_string (httpMethod event) "OPTIONS"
  then mkHttp 204 corsHeaders ""
  else if strict_eq_string (httpMethod event) "POST"
  then match
         (request ← JSON_parse (ToString (body event));
          match request with
          | JArr requests =>
              responses ← batch_responses requests [];
              Normal (mkHttp 200 jsonHeaders
                        (JSON_stringify
                           (match responses with
                            | [response] => response
                            | _ => JArr responses
                            end)))
          | _ =>
              response ← handleJsonRpcRequest request;
              match response with
              | JNull => Normal (mkHttp 202 corsHeaders "")
              | _ => Normal (mkHttp 200 jsonHeaders (JSON_stringify response))
              end
          end)
       with
       | Normal response => response
       | Throw error =>
           mkHttp 400 jsonHeaders
             (JSON_stringify
                (rpc_error JNull (-32700) ("Parse error: " +:+ message error)))
       end
  else if strict_eq_string (httpMethod event) "GET"
  then mkHttp 200 jsonHeaders
         (JSON_stringify
            (JObj [("name", JStr "magentaa11y-mcp"); ("version", JStr "1.0.0");
                   ("status", JStr "healthy");
                   ("protocol", JStr "MCP JSON-RPC 2.0");
                   ("tools", JNum (Finite (Z.of_nat (length tools))))]))
  else mkHttp 405 corsHeaders (JSON_stringify (JObj [("error", JStr "Method not allowed")])).

End Api.

(** ** Notions the properties are stated with *)

(** The components of a platform in scan order: categories in stored order,
    each category's children in stored order, every child paired with the
    label and the name of its category. *)
Definition components_in_scan_order (platformData : list Category)
  : list ResolvedComponent :=
  List.concat
    (map (fun cat => match children cat with
                     | Some cs => map (resolve cat) cs
                     | None => []
                     end) platformData).



(** [needle] occurs, case-insensitively, in the name or the label. *)
Definition name_or_label_contains (needle : string) (r : ResolvedComponent) : Prop :=
  includes (toLowerCase (name (component r))) needle = true
  \/ includes (toLowerCase (label (component r))) needle = true.


(** What [get_web_component] prints of a resolved component apart from the
    code examples: the heading, the category, the identifier and the overview,
    condensed and Gherkin sections the component has. *)
Definition web_criteria_text (r : ResolvedComponent) : string :=
  "# " +:+ label (component r) +:+ nl +:+ nl
  +:+ "**Category:** " +:+ category r +:+ nl
  +:+ "**Component ID:** `" +:+ name (component r) +:+ "`" +:+ nl +:+ nl
  +:+ when (ToBoolean (generalNotes (component r)))
        ("## Overview" +:+ nl +:+ ToString (generalNotes (component r)) +:+ nl +:+ nl)
  +:+ when (ToBoolean (condensed (component r)))
        ("## Condensed Criteria" +:+ nl
         +:+ ToString (condensed (component r)) +:+ nl +:+ nl)
  +:+ when (ToBoolean (gherkin (component r)))
        ("## Gherkin Acceptance Criteria" +:+ nl
         +:+ ToString (gherkin (component r)) +:+ nl +:+ nl).

(** The code-example section of [get_web_component]. *)
Definition web_code_text (r : ResolvedComponent) : string :=
  when (ToBoolean (developerNotes (component r)))
    ("## Developer Notes & Code Examples" +:+ nl
     +:+ ToString (developerNotes (component r)) +:+ nl).

(** The same two parts for [get_native_component]. *)
Definition native_criteria_text (r : ResolvedComponent) : string :=
  "# " +:+ label (component r) +:+ " (Native)" +:+ nl +:+ nl
  +:+ "**Category:** " +:+ category r +:+ nl
  +:+ "**Component ID:** `" +:+ name (component r) +:+ "`" +:+ nl +:+ nl
  +:+ when (ToBoolean (generalNotes (component r)))
        ("## Overview" +:+ nl +:+ ToString (generalNotes (component r)) +:+ nl +:+ nl)
  +:+ when (ToBoolean (condensed (component r)))
        ("## Condensed Criteria" +:+ nl
         +:+ ToString (condensed (component r)) +:+ nl +:+ nl)
  +:+ when (ToBoolean (gherkin (component r)))
        ("## Gherkin Acceptance Criteria" +:+ nl
         +:+ ToString (gherkin (component r)) +:+ nl +:+ nl).

Definition native_code_text (r : ResolvedComponent) : string :=
  when (ToBoolean (iosDeveloperNotes (component r)))
    ("## iOS Developer Notes (VoiceOver)" +:+ nl
     +:+ ToString (iosDeveloperNotes (component r)) +:+ nl +:+ nl)
  +:+ when (ToBoolean (androidDeveloperNotes (component r)))
        ("## Android Developer Notes (TalkBack)" +:+ nl
         +:+ ToString (androidDeveloperNotes (component r)) +:+ nl +:+ nl)
  +:+ when (ToBoolean (developerNotes (component r)))
        ("## General Developer Notes" +:+ nl
         +:+ ToString (developerNotes (component r)) +:+ nl).

(** What [get_component_gherkin] prints for a resolved component. *)
Definition gherkin_text (platform : JsValue) (r : ResolvedComponent) : string :=
  if ToBoolean (gherkin (component r))
  then "# Gherkin Acceptance Criteria: " +:+ label (component r) +:+ nl +:+ nl
       +:+ "**Platform:** " +:+ ToString platform +:+ nl
       +:+ "**Category:** " +:+ category r +:+ nl +:+ nl
       +:+ ToString (gherkin (component r))
  else "No Gherkin criteria available for " +:+ dquote
       +:+ label (component r) +:+ dquote +:+ ".".

(** The message of the TypeError a method call on undefined raises. *)
Definition undefined_toLowerCase : string :=
  "Cannot read properties of undefined (reading 'toLowerCase')".

(** The non-overlapping occurrences of [q] in [v], counted from the left:
    after an occurrence the scan resumes behind it ([skip] characters are
    still covered by the last one). *)
Fixpoint occurrences_from (skip : nat) (q v : string) : nat :=
  match v with
  | EmptyString => O
  | String _ v' =>
      match skip with
      | S k => occurrences_from k q v'
      | O =>
          if String.prefix q v
          then S (occurrences_from (String.length q - 1) q v')
          else occurrences_from 0 q v'
      end
  end.

(** The empty string occurs once at every position, the end included. *)
Definition occurrenceCount (q v : string) : nat :=
  if String.eqb q EmptyString then S (String.length v)
  else occurrences_from 0 q v.


(** The same, for a field that holds a non-empty string. *)
Definition field_counts (normalizedQuery : string) (c : Component) (field : string)
  : bool :=
  match Component_get c field with
  | JStr v => negb (String.eqb v EmptyString) && includes (toLowerCase v) normalizedQuery
  | _ => false
  end.

(** What one weighted field adds to the score: its weight plus one less than
    the number of occurrences, when it counts. *)
Definition field_points (normalizedQuery : string) (c : Component) (fw : string * Z)
  : Z :=
  match Component_get c fw.1 with
  | JStr v =>
      if field_counts normalizedQuery c fw.1
      then fw.2 + (Z.of_nat (occurrenceCount normalizedQuery (toLowerCase v)) - 1)
      else 0
  | _ => 0
  end.

Definition weighted_score (normalizedQuery : string) (c : Component) : Z :=
  foldr Z.add 0 (map (field_points normalizedQuery c) searchFields).

Definition matched_fields (normalizedQuery : string) (c : Component) : list string :=
  map fst (List.filter (fun fw => field_counts normalizedQuery c fw.1) searchFields).

(** The record of a component in the search results. *)
Definition scored_match (normalizedQuery : string) (r : ResolvedComponent)
  : ScoredMatch :=
  mkScored (name (component r)) (label (component r)) (category r) (categoryName r)
    (weighted_score normalizedQuery (component r))
    (matched_fields normalizedQuery (component r))
    (generalNotes (component r)).

(** [a] may stand before [b] in the results: a higher score, or the same
    score and a name that [localeCompare] does not put after. *)
Definition ranked_before `{host : Host} (a b : ScoredMatch) : Prop :=
  score b < score a
  \/ (score a = score b /\ localeCompare (sm_name a) (sm_name b) <= 0).

(** The summary [listComponents] gives of a component. *)
Definition summary_of (r : ResolvedComponent) : ComponentSummary :=
  mkSummary (name (component r)) (label (component r)) (category r) (categoryName r).

(** A component that has its identifier and label only. *)
Definition plain (n l : string) : Component :=
  mkComponent n l JUndefined JUndefined JUndefined JUndefined JUndefined
    JUndefined JUndefined.

Definition checkbox : Component :=
  mkComponent "checkbox" "Checkbox" JUndefined (JStr "Given a checkbox")
    JUndefined (JStr "<input type=checkbox>") JUndefined JUndefined JUndefined.

Definition controls : Category :=
  mkCategory "controls" "Controls" (Some [checkbox; plain "button" "Button"]).

(** A category record that has no [children] field. *)
Definition childless : Category := mkCategory "empty" "Empty" None.


(** A small collection: one web category with two components, and a native
    category that has no [children]. *)
Definition demo : Content :=
  {[ "web" := [controls];
     "native" := [childless] ]}.

(** A platform in which a component whose name contains "button" stands
    before the component named "button". *)
Definition forms : Content :=
  {[ "web" := [mkCategory "forms" "Forms"
                 (Some [plain "radio-button" "Radio button"; plain "button" "Button"])] ]}.

(** The exact text of a "not found" answer that offers no suggestion. *)
Definition plain_not_found (opening : string) (wanted : JsValue) : string :=
  opening +:+ dquote +:+ ToString wanted +:+ dquote +:+ " not found.".

(** The category is the one a filter names: the names are compared in lower
    case, as they stand. *)
Definition selected_by (wanted : string) (cat : Category) : bool :=
  String.eqb (toLowerCase (cat_name cat)) (toLowerCase wanted).

(** Some weighted field of the component holds a non-empty string that
    contains the query. *)
Definition has_match (normalizedQuery : string) (c : Component) : bool :=
  existsb (fun fw => field_counts normalizedQuery c fw.1) searchFields.

(** The record [searchComponents] pushes for a component. *)
Definition result_of (cat : Category) (c : Component) (scored : Z * list string)
  : ScoredMatch :=
  mkScored (name c) (label c) (cat_label cat) (cat_name cat) scored.1 scored.2
    (generalNotes c).

(** The key names a property that every object inherits. *)
Definition inherited_key (key : string) : bool :=
  existsb (String.eqb key) Object_prototype_names.

(** The labels in the order of their first appearance, each once. *)
Fixpoint first_appearance (labels : list string) : list string :=
  match labels with
  | [] => []
  | l :: rest => l :: List.filter (fun l' => negb (String.eqb l' l)) (first_appearance rest)
  end.

(** The components under each category label, the labels in the order of
    their first appearance and the components of a label in listing order. *)
Definition grouped_by_label (components : list ComponentSummary)
  : list (string * list ComponentSummary) :=
  map (fun l => (l, List.filter (fun c => String.eqb (sum_category c) l) components))
    (first_appearance (map sum_category components)).

(** The first line of a listing. *)
Definition listing_heading (title : string) (total : nat) : string :=
  "# " +:+ title +:+ " Accessibility Components (" +:+ pretty total +:+ " total)"
  +:+ nl +:+ nl.

(** A platform with a category whose label is the name of a property of
    [Object.prototype]. *)
Definition reserved : Content :=
  {[ "web" := [mkCategory "misc" "constructor" (Some [plain "x" "X"])] ]}.

(** [request.key] of a request that is neither null nor undefined. *)
Definition member (request : JsValue) (key : string) : JsValue :=
  match request with
  | JObj properties => default JUndefined (own_property properties key)
  | _ => JUndefined
  end.

Definition nullish (v : JsValue) : bool :=
  match v with
  | JUndefined | JNull => true
  | _ => false
  end.

(** The request is the notification the server accepts. *)
Definition is_notification (request : JsValue) : bool :=
  strict_eq_string (member request "method") "notifications/initialized".

Definition known_methods : list string :=
  [ "initialize"; "tools/list"; "tools/call"; "notifications/initialized"; "ping" ].

(** A [tools/call] request. *)
Definition call_request (id name_ arguments : JsValue) : JsValue :=
  JObj [("jsonrpc", JStr "2.0"); ("id", id); ("method", JStr "tools/call");
        ("params", JObj [("name", name_); ("arguments", arguments)])].

(** The body of a response to a batch. *)
Definition batch_body (responses : list JsValue) : JsValue :=
  match responses with
  | [response] => response
  | _ => JArr responses
  end.

Definition is_null (v : JsValue) : bool :=
  match v with
  | JNull => true
  | _ => false
  end.

(** The responses of a batch that are sent: those that are not null. *)
Definition sent (responses : list JsValue) : list JsValue :=
  List.filter (fun response => negb (is_null response)) responses.

(** The line a listing prints for a category when the filter selects no
    component. *)
Definition category_count_line (cat : Category) : string :=
  "- " +:+ cat_label cat +:+ " (" +:+ cat_name cat +:+ "): "
  +:+ pretty (length (default [] (children cat))) +:+ " components".

(** How the stateless endpoint reports the outcome of a tool. *)
Definition outcome_response (id : JsValue) (outcome : Completion JsValue) : JsValue :=
  match outcome with
  | Normal result => rpc_result id result
  | Throw error => rpc_error id (-32603) (message error)
  end.

(** A parser for the bodies of the examples, and a printer that tells a
    response from an array of responses. *)
Definition example_parse (text : string) : Completion JsValue :=
  if String.eqb text "[null]" then Normal (JArr [JNull])
  else if String.eqb text "initialized"
  then Normal (JObj [("method", JStr "notifications/initialized")])
  else if String.eqb text "[ping, initialized]"
  then Normal (JArr [JObj [("id", JNum (Finite 1)); ("method", JStr "ping")];
                     JObj [("method", JStr "notifications/initialized")]])
  else Throw (mkError "SyntaxError" "Unexpected token").

Definition example_stringify (v : JsValue) : string :=
  match v with
  | JArr items => "array of " +:+ pretty (length items)
  | JObj properties => "object of " +:+ pretty (length properties)
  | _ => ToString v
  end.

(** A platform with a label that holds a syntax character. *)
Definition variants : Content :=
  {[ "web" := [mkCategory "controls" "Controls"
                 (Some [plain "button" "Button (primary)"])] ]}.

(** A host for the examples: it orders strings by code units, rejects every
    pattern that holds a syntax character and reads no string as a number. *)
Definition code_unit_compare (a b : string) : Z :=
  match String.compare a b with
  | Lt => -1
  | Eq => 0
  | Gt => 1
  end.

Definition example_host : Host :=
  mkHost code_unit_compare
    (fun pattern _ =>
       Throw (mkError "SyntaxError" ("Invalid regular expression: /" +:+ pattern +:+ "/g")))
    (fun _ => NaN).

(** ** Strings *)

Example toLowerCase_example : toLowerCase " Text-Input " = " text-input ".
Proof. reflexivity. Qed.

Example trim_example : trim "  text input  " = "text input".
Proof. reflexivity. Qed.

Example includes_example :
  includes "button" "butt" = true /\ includes "button" "bun" = false.
Proof. split; reflexivity. Qed.

Example occurrenceCount_examples :
  occurrenceCount "focus" "focus ring, focus order" = 2%nat
  /\ occurrenceCount "aa" "aaaaa" = 2%nat
  /\ occurrenceCount "x" "abc" = 0%nat.
Proof. repeat split; reflexivity. Qed.





Lemma prefix_empty (s : string) : String.prefix EmptyString s = true.
Proof. destruct s; reflexivity. Qed.

Lemma prefix_refl (s : string) : String.prefix s s = true.
Proof.
  induction s as [|c s IH]; simpl; [reflexivity|].
  destruct (ascii_dec c c); [exact IH | congruence].
Qed.

Lemma includes_empty (s : string) : includes s EmptyString = true.
Proof. destruct s; reflexivity. Qed.

Lemma includes_refl (s : string) : includes s s = true.
Proof. destruct s; cbn [includes]; now rewrite prefix_refl. Qed.

(** ** The passes of [findComponent] *)

Lemma scan_children_find (test : Component -> bool) (cat : Category)
    (cs : list Component) :
  scan_children test cat cs
  = List.find (fun r => test (component r)) (map (resolve cat) cs).
Proof.
  induction cs as [|c cs IH]; simpl; [reflexivity|].
  destruct (test c); [reflexivity | exact IH].
Qed.

Lemma find_app {A : Type} (f : A -> bool) (l1 l2 : list A) :
  List.find f (l1 ++ l2)
  = match List.find f l1 with
    | Some x => Some x
    | None => List.find f l2
    end.
Proof.
  induction l1 as [|x l1 IH]; simpl; [reflexivity|].
  destruct (f x); [reflexivity | exact IH].
Qed.

(** A pass returns the first component in scan order that passes its test. *)
Lemma scan_categories_find (test : Component -> bool) (platformData : list Category) :
  scan_categories test platformData
  = List.find (fun r => test (component r)) (components_in_scan_order platformData).
Proof.
  induction platformData as [|cat rest IH]; simpl; [reflexivity|].
  unfold components_in_scan_order; simpl.
  rewrite find_app. fold (components_in_scan_order rest). rewrite <- IH.
  destruct (children cat) as [cs|]; simpl; [|reflexivity].
  rewrite scan_children_find.
  now destruct (List.find _ (map (resolve cat) cs)).
Qed.

Lemma find_split {A : Type} (f : A -> bool) (l : list A) (x : A) :
  List.find f l = Some x ->
  exists before after,
    l = before ++ x :: after /\ f x = true /\ Forall (fun y => f y = false) before.
Proof.
  induction l as [|y l IH]; simpl; [discriminate|].
  destruct (f y) eqn:Hy.
  - intros [= ->]. exists [], l. repeat split; [exact Hy | constructor].
  - intros H. destruct (IH H) as (before & after & -> & Hx & Hb).
    exists (y :: before), after. repeat split; [exact Hx | constructor; assumption].
Qed.

Lemma find_none_iff {A : Type} (f : A -> bool) (l : list A) :
  List.find f l = None <-> Forall (fun y => f y = false) l.
Proof.
  induction l as [|y l IH]; simpl.
  - split; [constructor | reflexivity].
  - destruct (f y) eqn:Hy.
    + split; [discriminate|]. intros H. inversion H; congruence.
    + rewrite IH. split; [now constructor | intros H; now inversion H].
Qed.



(** The two passes, for a string argument on a known platform. *)
Lemma findComponent_passes (contentData : Content) (P : string)
    (platformData : list Category) (s : string) :
  contentData !! P = Some platformData ->
  findComponent contentData P (JStr s)
  = Normal
      (match List.find (fun r => exact_test (trim (toLowerCase s)) (component r))
               (components_in_scan_order platformData) with
       | Some found => Some found
       | None => List.find (fun r => partial_test (trim (toLowerCase s)) (component r))
                   (components_in_scan_order platformData)
       end).
Proof.
  intros HP. unfold findComponent, loadContent. rewrite HP. simpl.
  rewrite !scan_categories_find.
  now destruct (List.find _ _).
Qed.

Lemma partial_test_contains (needle : string) (r : ResolvedComponent) :
  partial_test needle (component r) = true <-> name_or_label_contains needle r.
Proof. unfold partial_test, name_or_label_contains. apply orb_true_iff. Qed.

Lemma partial_test_false (needle : string) (r : ResolvedComponent) :
  partial_test needle (component r) = false <-> ~ name_or_label_contains needle r.
Proof.
  rewrite <- partial_test_contains.
  destruct (partial_test needle (component r)); split; congruence.
Qed.






(** On the empty name the outcome is null only where the platform holds no
    component at all. *)
Lemma findComponent_empty_name (contentData : Content) (P : string)
    (platformData : list Category) :
  contentData !! P = Some platformData ->
  (findComponent contentData P (JStr "") = Normal None
   <-> components_in_scan_order platformData = []).
Proof.
  intros HP. rewrite (findComponent_passes _ _ _ _ HP).
  change (trim (toLowerCase "")) with "".
  destruct (components_in_scan_order platformData) as [|r rest] eqn:E.
  - simpl. split; reflexivity.
  - split; [|discriminate].
    destruct (List.find _ (r :: rest)); [discriminate|].
    simpl. unfold partial_test. now rewrite includes_empty.
Qed.

(** C5. Fuzzy fallback: when no name of the platform equals the normalized
    query, [findComponent] returns the first component in scan order whose name
    or label contains it, case-insensitively, and null when there is none. *)
Theorem findComponent_fuzzy_fallback (contentData : Content) (P : string)
    (platformData : list Category) (s : string) :
  contentData !! P = Some platformData ->
  (forall r, r ∈ components_in_scan_order platformData ->
             toLowerCase (name (component r)) <> trim (toLowerCase s)) ->
  (findComponent contentData P (JStr s) = Normal None
   /\ forall r, r ∈ components_in_scan_order platformData ->
                ~ name_or_label_contains (trim (toLowerCase s)) r)
  \/ exists before found after,
       components_in_scan_order platformData = before ++ found :: after
       /\ name_or_label_contains (trim (toLowerCase s)) found
       /\ (forall r, r ∈ before -> ~ name_or_label_contains (trim (toLowerCase s)) r)
       /\ findComponent contentData P (JStr s) = Normal (Some found).
Proof.
  intros HP Hno. rewrite (findComponent_passes _ _ _ _ HP).
  assert (Hexact : List.find (fun r => exact_test (trim (toLowerCase s)) (component r))
                     (components_in_scan_order platformData) = None).
  { apply find_none_iff, Forall_forall. intros r Hr.
    unfold exact_test. apply String.eqb_neq, Hno, Hr. }
  rewrite Hexact.
  destruct (List.find (fun r => partial_test _ (component r)) _) as [found|] eqn:Hfind.
  - right. apply find_split in Hfind as (before & after & Heq & Hfound & Hbefore).
    exists before, found, after.
    split; [exact Heq|]. split; [now apply partial_test_contains|].
    split; [|reflexivity].
    intros r Hr. apply partial_test_false.
    rewrite Forall_forall in Hbefore. now apply Hbefore.
  - left. split; [reflexivity|].
    intros r Hr. apply partial_test_false.
    apply find_none_iff in Hfind. rewrite Forall_forall in Hfind. now apply Hfind.
Qed.

Lemma findComponent_fuzzy_fallback_witness :
  (findComponent demo "web" (JStr "Butt") = Normal None
   /\ forall r, r ∈ components_in_scan_order [controls] ->
                ~ name_or_label_contains (trim (toLowerCase "Butt")) r)
  \/ exists before found after,
       components_in_scan_order [controls] = before ++ found :: after
       /\ name_or_label_contains (trim (toLowerCase "Butt")) found
       /\ (forall r, r ∈ before -> ~ name_or_label_contains (trim (toLowerCase "Butt")) r)
       /\ findComponent demo "web" (JStr "Butt") = Normal (Some found).
Proof.
  apply (findComponent_fuzzy_fallback demo "web" [controls] "Butt").
  - reflexivity.
  - intros r Hr. vm_compute in Hr.
    apply elem_of_cons in Hr as [->|Hr];
      [|apply elem_of_cons in Hr as [->|Hr]; [|now apply elem_of_nil in Hr]];
      discriminate.
Defined.

(** ** [listComponentFormats] *)

Lemma findComponent_string_returns (contentData : Content) (P s : string) :
  exists found, findComponent contentData P (JStr s) = Normal found.
Proof.
  destruct (contentData !! P) as [platformData|] eqn:HP.
  - rewrite (findComponent_passes _ _ _ _ HP). eauto.
  - unfold findComponent, loadContent. rewrite HP. eauto.
Qed.




(** ** A category without [children] *)

Lemma scan_order_app (l1 l2 : list Category) :
  components_in_scan_order (l1 ++ l2)
  = components_in_scan_order l1 ++ components_in_scan_order l2.
Proof. unfold components_in_scan_order. now rewrite map_app, concat_app. Qed.

Lemma scan_order_skip (before after : list Category) (cat : Category) :
  children cat = None ->
  components_in_scan_order (before ++ cat :: after)
  = components_in_scan_order (before ++ after).
Proof.
  intros Hcat. rewrite !scan_order_app. f_equal.
  unfold components_in_scan_order. simpl. now rewrite Hcat.
Qed.

Lemma listComponents_loop_app (category : JsValue) (l1 l2 : list Category)
    (acc : list ComponentSummary) :
  listComponents_loop category (l1 ++ l2) acc
  = listComponents_loop category l1 acc ≫= listComponents_loop category l2.
Proof.
  revert acc. induction l1 as [|cat l1 IH]; intros acc; simpl; [reflexivity|].
  destruct (filtered_out category cat) as [[]|e]; simpl; [apply IH | | reflexivity].
  destruct (children cat); apply IH.
Qed.

Lemma listComponents_loop_skip (category : JsValue) (before after : list Category)
    (cat : Category) (acc : list ComponentSummary) :
  children cat = None ->
  (exists b, filtered_out category cat = Normal b) ->
  listComponents_loop category (before ++ cat :: after) acc
  = listComponents_loop category (before ++ after) acc.
Proof.
  intros Hcat [b Hb]. rewrite !listComponents_loop_app.
  destruct (listComponents_loop category before acc); simpl; [|reflexivity].
  rewrite Hb, Hcat. simpl. now destruct b.
Qed.

Lemma listComponents_loop_unfiltered (cats : list Category)
    (acc : list ComponentSummary) :
  exists l, listComponents_loop JNull cats acc = Normal l.
Proof.
  revert acc. induction cats as [|cat cats IH]; intros acc; simpl; [eauto|].
  destruct (children cat); apply IH.
Qed.

Lemma search_categories_app `{host : Host} (normalizedQuery : string)
    (l1 l2 : list Category) (acc : list ScoredMatch) :
  search_categories normalizedQuery (l1 ++ l2) acc
  = search_categories normalizedQuery l1 acc ≫= search_categories normalizedQuery l2.
Proof.
  revert acc. induction l1 as [|cat l1 IH]; intros acc; simpl; [reflexivity|].
  destruct (children cat) as [cs|]; [|apply IH].
  destruct (search_children normalizedQuery cat cs acc); simpl; [apply IH | reflexivity].
Qed.

Lemma search_categories_skip `{host : Host} (normalizedQuery : string)
    (before after : list Category) (cat : Category) (acc : list ScoredMatch) :
  children cat = None ->
  search_categories normalizedQuery (before ++ cat :: after) acc
  = search_categories normalizedQuery (before ++ after) acc.
Proof.
  intros Hcat. rewrite !search_categories_app.
  destruct (search_categories normalizedQuery before acc); simpl; [|reflexivity].
  now rewrite Hcat.
Qed.

(** C10. A category whose [children] field is absent is skipped: with it in
    the platform, [listComponents], [findComponent] and [searchComponents]
    return what they return without it, none of them raising an error because
    of it, and [listCategories] reports it with [componentCount] 0. *)
Theorem category_without_children_tolerated `{host : Host} (contentData : Content)
    (P : string) (before after : list Category) (cat : Category) :
  children cat = None ->
  let with_cat := <[P := before ++ cat :: after]> contentData in
  let without_cat := <[P := before ++ after]> contentData in
  listComponents with_cat P JUndefined = listComponents without_cat P JUndefined
  /\ (forall c, listComponents with_cat P (JStr c) = listComponents without_cat P (JStr c))
  /\ (exists l, listComponents with_cat P JUndefined = Normal l)
  /\ (forall componentName,
        findComponent with_cat P componentName = findComponent without_cat P componentName)
  /\ (forall s, exists found, findComponent with_cat P (JStr s) = Normal found)
  /\ (forall query maxResults,
        searchComponents with_cat P query maxResults
        = searchComponents without_cat P query maxResults)
  /\ listCategories with_cat P !! length before
     = Some (mkCategoryInfo (cat_name cat) (cat_label cat) 0).
Proof.
  intros Hcat with_cat without_cat.
  assert (Hw : with_cat !! P = Some (before ++ cat :: after))
    by apply lookup_insert_eq.
  assert (Hwo : without_cat !! P = Some (before ++ after))
    by apply lookup_insert_eq.
  repeat split.
  - unfold listComponents, loadContent. rewrite Hw, Hwo.
    apply listComponents_loop_skip; [exact Hcat | simpl; eauto].
  - intros c. unfold listComponents, loadContent. rewrite Hw, Hwo.
    apply listComponents_loop_skip; [exact Hcat|].
    unfold filtered_out. simpl. destruct (negb _); simpl; eauto.
  - unfold listComponents, loadContent. rewrite Hw.
    apply listComponents_loop_unfiltered.
  - intros componentName. unfold findComponent, loadContent. rewrite Hw, Hwo.
    destruct (call_toLowerCase "componentName" componentName); simpl; [|reflexivity].
    now rewrite !scan_categories_find, (scan_order_skip _ _ _ Hcat).
  - intros s. apply findComponent_string_returns.
  - intros query maxResults. unfold searchComponents, loadContent. rewrite Hw, Hwo.
    destruct (negb (ToBoolean query)); [reflexivity|].
    destruct (call_toLowerCase "query" query); simpl; [|reflexivity].
    now rewrite (search_categories_skip _ _ _ _ _ Hcat).
  - unfold listCategories, loadContent. rewrite Hw.
    rewrite list_lookup_fmap, lookup_app_r, Nat.sub_diag by lia.
    simpl. now rewrite Hcat.
Qed.

Lemma category_without_children_tolerated_witness :
  listCategories (<["web" := [controls; childless]]> demo) "web" !! 1%nat
  = Some (mkCategoryInfo "empty" "Empty" 0)
  /\ findComponent (<["web" := [controls; childless]]> demo) "web" (JStr "button")
     = findComponent (<["web" := [controls]]> demo) "web" (JStr "button").
Proof.
  destruct (category_without_children_tolerated (host := example_host)
              demo "web" [controls] [] childless eq_refl)
    as (_ & _ & _ & Hfind & _ & _ & Hcount).
  split; [exact Hcount | exact (Hfind (JStr "button"))].
Defined.

(** ** The handlers *)

Lemma append_cons (c : ascii) (s t : string) :
  String c s +:+ t = String c (s +:+ t).
Proof. reflexivity. Qed.

Lemma append_empty_r (s : string) : s +:+ "" = s.
Proof.
  induction s as [|c s IH]; [reflexivity|]. now rewrite append_cons, IH.
Qed.

Lemma append_assoc (a b c : string) : (a +:+ b) +:+ c = a +:+ b +:+ c.
Proof.
  induction a as [|x a IH]; [reflexivity|]. now rewrite !append_cons, IH.
Qed.

Lemma strict_neq_false_spec (v : JsValue) :
  strict_neq_false v = false <-> v = JBool false.
Proof.
  split; [|now intros ->].
  destruct v as [| |[]| | | |]; simpl; congruence.
Qed.

Lemma when_kept (v : JsValue) (f : JsValue -> string) :
  when (ToBoolean (if ToBoolean v then v else JUndefined))
    (f (if ToBoolean v then v else JUndefined))
  = when (ToBoolean v) (f v).
Proof. destruct (ToBoolean v) eqn:E; simpl; [now rewrite E | reflexivity]. Qed.

Lemma when_js_or (v : JsValue) (f : JsValue -> string) :
  when (ToBoolean (js_or v JNull)) (f (js_or v JNull)) = when (ToBoolean v) (f v).
Proof. unfold js_or. destruct (ToBoolean v) eqn:E; simpl; [now rewrite E | reflexivity]. Qed.

(** The text [get_web_component] answers with for a component it resolved. *)
Lemma get_web_component_resolved (contentData : Content)
    (args : gmap string JsValue) (r : ResolvedComponent) :
  findComponent contentData "web" (prop args "component") = Normal (Some r) ->
  get_web_component contentData args
  = textResponse
      (web_criteria_text r
       +:+ when (strict_neq_false (prop args "include_code_examples"))
             (web_code_text r)).
Proof.
  intros Hfind. unfold get_web_component. rewrite Hfind.
  destruct (strict_neq_false (prop args "include_code_examples")); simpl;
    f_equal; unfold web_criteria_text, web_code_text;
    rewrite !append_assoc;
    rewrite (when_js_or (generalNotes (component r))
               (fun v => "## Overview" +:+ nl +:+ ToString v +:+ nl +:+ nl));
    rewrite (when_kept (condensed (component r))
               (fun v => "## Condensed Criteria" +:+ nl +:+ ToString v +:+ nl +:+ nl));
    rewrite (when_kept (gherkin (component r))
               (fun v => "## Gherkin Acceptance Criteria" +:+ nl
                         +:+ ToString v +:+ nl +:+ nl)).
  - now rewrite (when_kept (developerNotes (component r))
                   (fun v => "## Developer Notes & Code Examples" +:+ nl
                             +:+ ToString v +:+ nl)).
  - reflexivity.
Qed.

(** The text [get_native_component] answers with for a component it resolved. *)
Lemma get_native_component_resolved (contentData : Content)
    (args : gmap string JsValue) (r : ResolvedComponent) :
  findComponent contentData "native" (prop args "component") = Normal (Some r) ->
  get_native_component contentData args
  = textResponse
      (native_criteria_text r
       +:+ when (strict_neq_false (prop args "include_code_examples"))
             (native_code_text r)).
Proof.
  intros Hfind. unfold get_native_component. rewrite Hfind. simpl.
  f_equal. unfold native_criteria_text, native_code_text.
  now rewrite !append_assoc.
Qed.

Lemma prop_insert_eq (args : gmap string JsValue) (key : string) (v : JsValue) :
  prop (<[key := v]> args) key = v.
Proof. unfold prop. now rewrite lookup_insert_eq. Qed.

Lemma prop_insert_ne (args : gmap string JsValue) (key key' : string) (v : JsValue) :
  key <> key' -> prop (<[key := v]> args) key' = prop args key'.
Proof. intros H. unfold prop. now rewrite lookup_insert_ne. Qed.

(** C9. [get_web_component] and [get_native_component] leave the developer
    notes out only when [include_code_examples] is the boolean false; for any
    other value, and when the argument is absent, the answer is the criteria
    text followed by the code-example sections the component has. *)
Theorem code_examples_left_out_only_on_false (contentData : Content)
    (args : gmap string JsValue) :
  (forall r,
      findComponent contentData "web" (prop args "component") = Normal (Some r) ->
      (prop args "include_code_examples" = JBool false ->
       get_web_component contentData args = textResponse (web_criteria_text r))
      /\ (prop args "include_code_examples" <> JBool false ->
          get_web_component contentData args
          = textResponse (web_criteria_text r +:+ web_code_text r)))
  /\ (forall r,
        findComponent contentData "native" (prop args "component") = Normal (Some r) ->
        (prop args "include_code_examples" = JBool false ->
         get_native_component contentData args = textResponse (native_criteria_text r))
        /\ (prop args "include_code_examples" <> JBool false ->
            get_native_component contentData args
            = textResponse (native_criteria_text r +:+ native_code_text r))).
Proof.
  split; intros r Hfind.
  - rewrite (get_web_component_resolved _ _ _ Hfind). split; intros Hflag.
    + rewrite Hflag. simpl. now rewrite append_empty_r.
    + destruct (strict_neq_false _) eqn:E; [reflexivity|].
      now apply strict_neq_false_spec in E.
  - rewrite (get_native_component_resolved _ _ _ Hfind). split; intros Hflag.
    + rewrite Hflag. simpl. now rewrite append_empty_r.
    + destruct (strict_neq_false _) eqn:E; [reflexivity|].
      now apply strict_neq_false_spec in E.
Qed.

Lemma code_examples_left_out_only_on_false_witness :
  get_web_component demo
    {[ "component" := JStr "checkbox"; "include_code_examples" := JStr "false" ]}
  = textResponse
      (web_criteria_text (mkResolved checkbox "Controls" "controls")
       +:+ web_code_text (mkResolved checkbox "Controls" "controls")).
Proof.
  refine (proj2 (proj1 (code_examples_left_out_only_on_false demo
            {[ "component" := JStr "checkbox";
               "include_code_examples" := JStr "false" ]})
            (mkResolved checkbox "Controls" "controls") _) _).
  - reflexivity.
  - discriminate.
Defined.

(** ** The result cap of the search handlers *)

Lemma js_or_falsy (v d : JsValue) : ToBoolean v = false -> js_or v d = d.
Proof. unfold js_or. now intros ->. Qed.

Lemma Array_slice_0_zero {A : Type} `{host : Host} (l : list A) :
  Array_slice_0 (JNum (Finite 0)) l = [].
Proof.
  unfold Array_slice_0. simpl.
  replace (Z.min 0 (Z.of_nat (length l))) with 0 by lia. reflexivity.
Qed.

(** C8. In [search_web_criteria] and [search_native_criteria] a falsy
    [max_results] (absent, null, false, 0, NaN, the empty string) is replaced
    by 10 before [searchComponents] is called: the handler answers as it does
    for [max_results] 10.  [searchComponents] itself, called with 0, scores the
    platform as usual and returns the empty sequence. *)
Theorem falsy_max_results_is_ten `{host : Host} (contentData : Content)
    (args : gmap string JsValue) :
  ToBoolean (prop args "max_results") = false ->
  search_web_criteria contentData args
  = search_web_criteria contentData (<["max_results" := JNum (Finite 10)]> args)
  /\ search_native_criteria contentData args
     = search_native_criteria contentData (<["max_results" := JNum (Finite 10)]> args)
  /\ (forall P query,
        searchComponents contentData P query (JNum (Finite 0))
        = searchComponents contentData P query JUndefined ≫= fun _ => Normal []).
Proof.
  intros Hfalsy. repeat split.
  - unfold search_web_criteria.
    rewrite prop_insert_eq, !prop_insert_ne by discriminate.
    now rewrite (js_or_falsy _ _ Hfalsy).
  - unfold search_native_criteria.
    rewrite prop_insert_eq, !prop_insert_ne by discriminate.
    now rewrite (js_or_falsy _ _ Hfalsy).
  - intros P query. unfold searchComponents.
    destruct (loadContent contentData !! P); [|reflexivity].
    destruct (negb (ToBoolean query)); [reflexivity|].
    destruct (call_toLowerCase "query" query); simpl; [|reflexivity].
    destruct (search_categories _ _ _); simpl; [|reflexivity].
    now rewrite Array_slice_0_zero.
Qed.

Lemma falsy_max_results_is_ten_witness :
  search_web_criteria (host := example_host) demo
    {[ "query" := JStr "b"; "max_results" := JNum (Finite 0) ]}
  = search_web_criteria (host := example_host) demo
      (<["max_results" := JNum (Finite 10)]>
         {[ "query" := JStr "b"; "max_results" := JNum (Finite 0) ]})
  /\ searchComponents (host := example_host) demo "web" (JStr "b") (JNum (Finite 0))
     = Normal [].
Proof.
  destruct (falsy_max_results_is_ten (host := example_host) demo
              {[ "query" := JStr "b"; "max_results" := JNum (Finite 0) ]})
    as (Hweb & _ & Hdirect).
  - vm_compute. reflexivity.
  - split; [exact Hweb|]. rewrite Hdirect. vm_compute. reflexivity.
Defined.

(** ** Required parameters *)

(** C6, as stated, fails: [get_web_component] with an empty [component] is
    answered exactly as the valid request for the first component is, and with
    no [component] the answer is the message of a caught TypeError. *)
Lemma get_web_component_empty_name_answered :
  get_web_component demo {[ "component" := JStr "" ]}
  = get_web_component demo {[ "component" := JStr "checkbox" ]}
  /\ get_web_component demo {[ "component" := JStr "" ]}
     = textResponse (web_criteria_text (mkResolved checkbox "Controls" "controls")
                     +:+ web_code_text (mkResolved checkbox "Controls" "controls"))
  /\ get_web_component demo ∅
     = textResponse ("Error getting component: " +:+ undefined_toLowerCase).
Proof. repeat split; vm_compute; reflexivity. Qed.

Lemma findComponent_undefined_throws (contentData : Content) (P : string)
    (platformData : list Category) :
  contentData !! P = Some platformData ->
  findComponent contentData P JUndefined = Throw (TypeError undefined_toLowerCase).
Proof. intros HP. unfold findComponent, loadContent. now rewrite HP. Qed.

Lemma findComponent_empty_name_resolves (contentData : Content) (P : string)
    (platformData : list Category) :
  contentData !! P = Some platformData ->
  components_in_scan_order platformData <> [] ->
  exists r, r ∈ components_in_scan_order platformData
            /\ findComponent contentData P (JStr "") = Normal (Some r).
Proof.
  intros HP Hne.
  destruct (findComponent_string_returns contentData P "") as [[r|] Hr].
  - exists r. split; [|exact Hr].
    rewrite (findComponent_passes _ _ _ _ HP) in Hr.
    destruct (List.find _ _) as [r'|] eqn:E in Hr.
    + injection Hr as <-. apply find_some in E as [E _]. now apply list_elem_of_In.
    + injection Hr as Hr. apply find_some in Hr as [Hr _]. now apply list_elem_of_In.
  - now apply (findComponent_empty_name _ _ _ HP) in Hr.
Qed.

Lemma searchComponents_falsy_query `{host : Host} (contentData : Content)
    (P : string) (query maxResults : JsValue) :
  ToBoolean query = false ->
  searchComponents contentData P query maxResults = Normal [].
Proof.
  intros Hq. unfold searchComponents. rewrite Hq. simpl.
  now destruct (loadContent contentData !! P).
Qed.

(** C6, amended.  No handler validates a required parameter; each relies on
    its try/catch.  On a platform that has data, the seven operations that
    take [component] answer an absent [component] with the message of the
    TypeError [findComponent] throws, prefixed by the operation's own error
    text.  An empty [component] is resolved by [findComponent] to a component
    of the platform whenever it holds one, and [get_web_component] and
    [get_component_gherkin] answer with that component's normal output.  The
    two search operations answer an absent or empty [query] with their "no
    results" text. *)
Theorem required_parameters_not_validated `{host : Host} (contentData : Content)
    (args : gmap string JsValue) :
  (prop args "component" = JUndefined ->
   (is_Some (contentData !! "web") ->
    get_web_component contentData args
    = textResponse ("Error getting component: " +:+ undefined_toLowerCase))
   /\ (is_Some (contentData !! "native") ->
       get_native_component contentData args
       = textResponse ("Error getting native component: " +:+ undefined_toLowerCase)
       /\ get_component_native_notes contentData args
          = textResponse ("Error getting native notes: " +:+ undefined_toLowerCase))
   /\ (is_Some (contentData !! platform_key args) ->
       get_component_gherkin contentData args
       = textResponse ("Error getting Gherkin criteria: " +:+ undefined_toLowerCase)
       /\ get_component_condensed contentData args
          = textResponse ("Error getting condensed criteria: " +:+ undefined_toLowerCase)
       /\ get_component_developer_notes contentData args
          = textResponse ("Error getting developer notes: " +:+ undefined_toLowerCase)
       /\ list_component_formats contentData args
          = textResponse ("Error listing formats: " +:+ undefined_toLowerCase)))
  /\ (prop args "component" = JStr "" ->
      (forall P platformData,
          contentData !! P = Some platformData ->
          components_in_scan_order platformData <> [] ->
          exists r, r ∈ components_in_scan_order platformData
                    /\ findComponent contentData P (prop args "component")
                       = Normal (Some r))
      /\ (forall web,
            contentData !! "web" = Some web -> components_in_scan_order web <> [] ->
            exists r, r ∈ components_in_scan_order web
                      /\ get_web_component contentData args
                         = textResponse
                             (web_criteria_text r
                              +:+ when (strict_neq_false
                                          (prop args "include_code_examples"))
                                    (web_code_text r)))
      /\ (forall platformData,
            contentData !! platform_key args = Some platformData ->
            components_in_scan_order platformData <> [] ->
            exists r, r ∈ components_in_scan_order platformData
                      /\ get_component_gherkin contentData args
                         = textResponse (gherkin_text (prop args "platform") r)))
  /\ (ToBoolean (prop args "query") = false ->
      search_web_criteria contentData args
      = textResponse ("No results found for " +:+ dquote
                      +:+ ToString (prop args "query") +:+ dquote
                      +:+ " in web accessibility criteria.")
      /\ search_native_criteria contentData args
         = textResponse ("No results found for " +:+ dquote
                         +:+ ToString (prop args "query") +:+ dquote
                         +:+ " in native accessibility criteria.")).
Proof.
  split; [|split].
  - intros Habsent. split; [|split].
    + intros [web Hweb]. unfold get_web_component.
      now rewrite Habsent, (findComponent_undefined_throws _ _ _ Hweb).
    + intros [native Hnative].
      unfold get_native_component, get_component_native_notes.
      now rewrite Habsent, (findComponent_undefined_throws _ _ _ Hnative).
    + intros [platformData HP].
      unfold get_component_gherkin, get_component_condensed,
        get_component_developer_notes, list_component_formats, listComponentFormats.
      now rewrite Habsent, (findComponent_undefined_throws _ _ _ HP).
  - intros Hempty. rewrite Hempty. split; [|split].
    + intros P platformData HP Hne.
      exact (findComponent_empty_name_resolves _ _ _ HP Hne).
    + intros web Hweb Hne.
      destruct (findComponent_empty_name_resolves _ _ _ Hweb Hne) as (r & Hin & Hr).
      exists r. split; [exact Hin|].
      apply get_web_component_resolved. now rewrite Hempty.
    + intros platformData HP Hne.
      destruct (findComponent_empty_name_resolves _ _ _ HP Hne) as (r & Hin & Hr).
      exists r. split; [exact Hin|].
      unfold get_component_gherkin, gherkin_text. rewrite Hempty, Hr. simpl.
      now destruct (ToBoolean (gherkin (component r))).
  - intros Hquery. unfold search_web_criteria, search_native_criteria.
    now rewrite !(searchComponents_falsy_query _ _ _ _ Hquery).
Qed.

Lemma required_parameters_not_validated_witness :
  get_web_component demo {[ "platform" := JStr "web" ]}
  = textResponse ("Error getting component: " +:+ undefined_toLowerCase)
  /\ get_component_gherkin demo {[ "platform" := JStr "web" ]}
     = textResponse ("Error getting Gherkin criteria: " +:+ undefined_toLowerCase)
  /\ search_web_criteria (host := example_host) demo {[ "platform" := JStr "web" ]}
     = textResponse ("No results found for " +:+ dquote +:+ "undefined" +:+ dquote
                     +:+ " in web accessibility criteria.").
Proof.
  destruct (required_parameters_not_validated (host := example_host) demo
              {[ "platform" := JStr "web" ]})
    as (Habsent & _ & Hquery).
  destruct Habsent as (Hweb & _ & Hplatform); [vm_compute; reflexivity|].
  split; [|split].
  - apply Hweb. now exists [controls].
  - apply Hplatform. now exists [controls].
  - apply Hquery. vm_compute. reflexivity.
Defined.

(** ** Counting occurrences *)

Lemma string_drop_length (n : nat) (s : string) :
  String.length (string_drop n s) = (String.length s - n)%nat.
Proof.
  revert s. induction n as [|n IH]; intros [|c s]; simpl; try lia. apply IH.
Qed.

Lemma prefix_length (p s : string) :
  String.prefix p s = true -> (String.length p <= String.length s)%nat.
Proof.
  revert p. induction s as [|c s IH]; intros [|a p]; simpl; try lia; try discriminate.
  destruct (ascii_dec a c); [|discriminate]. intros H. apply IH in H. lia.
Qed.

Lemma occurrences_from_drop (k : nat) (q v : string) :
  occurrences_from k q v = occurrences_from 0 q (string_drop k v).
Proof.
  revert k. induction v as [|c v IH]; intros [|k]; try reflexivity.
  simpl. apply IH.
Qed.

Lemma exec_none (q v : string) :
  RegExpBuiltinExec q v = None -> occurrences_from 0 q v = O.
Proof.
  induction v as [|c v IH]; [reflexivity|].
  cbn [RegExpBuiltinExec occurrences_from].
  destruct (String.prefix q (String c v)); [discriminate | exact IH].
Qed.

Lemma exec_some (q v rest : string) :
  q <> EmptyString ->
  RegExpBuiltinExec q v = Some rest ->
  occurrences_from 0 q v = S (occurrences_from 0 q rest)
  /\ (String.length rest < String.length v)%nat.
Proof.
  intros Hq. induction v as [|c v IH].
  - cbn [RegExpBuiltinExec]. destruct q; [congruence | discriminate].
  - cbn [RegExpBuiltinExec occurrences_from].
    destruct (String.prefix q (String c v)) eqn:Hp.
    + intros [= <-]. destruct q as [|a q]; [congruence|].
      apply prefix_length in Hp. cbn [String.length] in *.
      split.
      * rewrite occurrences_from_drop. simpl. now rewrite Nat.sub_0_r.
      * simpl. rewrite string_drop_length. lia.
    + intros H. destruct (IH H) as [IH1 IH2]. split; [exact IH1 | simpl; lia].
Qed.

Lemma match_loop_occurrences (fuel : nat) (q v : string) :
  q <> EmptyString -> (String.length v < fuel)%nat ->
  match_loop fuel q v = occurrences_from 0 q v.
Proof.
  intros Hq. revert v. induction fuel as [|fuel IH]; intros v Hfuel; [lia|].
  cbn [match_loop].
  destruct (RegExpBuiltinExec q v) as [rest|] eqn:E.
  - apply String.eqb_neq in Hq as Hq'. rewrite Hq'.
    destruct (exec_some _ _ _ Hq E) as [-> Hlen].
    f_equal. apply IH. lia.
  - symmetry. now apply exec_none.
Qed.

Lemma match_loop_empty_pattern (fuel : nat) (v : string) :
  (String.length v < fuel)%nat ->
  match_loop fuel EmptyString v = S (String.length v).
Proof.
  revert v. induction fuel as [|fuel IH]; intros v Hfuel; [lia|].
  destruct v as [|c v]; [reflexivity|].
  cbn [match_loop RegExpBuiltinExec String.prefix string_drop String.length].
  simpl String.eqb. cbn iota. f_equal. apply IH. simpl in Hfuel. lia.
Qed.

(** For a literal pattern the global match finds the non-overlapping
    occurrences of its text. *)
Lemma match_loop_occurrenceCount (q v : string) :
  match_loop (S (String.length v)) q v = occurrenceCount q v.
Proof.
  unfold occurrenceCount. destruct (String.eqb q EmptyString) eqn:E.
  - apply String.eqb_eq in E as ->. apply match_loop_empty_pattern. lia.
  - apply String.eqb_neq in E. apply match_loop_occurrences; [exact E | lia].
Qed.

Lemma match_global_length_literal `{host : Host} (q v : string) :
  isLiteralPattern q = true ->
  match_global_length q v = Normal (occurrenceCount q v).
Proof.
  intros Hq. unfold match_global_length. rewrite Hq.
  now rewrite match_loop_occurrenceCount.
Qed.

(** ** Scoring *)

Lemma score_field_literal `{host : Host} (normalizedQuery : string) (c : Component)
    (acc : Z * list string) (fw : string * Z) :
  isLiteralPattern normalizedQuery = true ->
  score_field normalizedQuery c acc fw
  = Normal (if field_counts normalizedQuery c fw.1
            then (acc.1 + field_points normalizedQuery c fw, acc.2 ++ [fw.1])
            else acc).
Proof.
  intros Hq. unfold score_field, field_points, field_counts.
  destruct (Component_get c fw.1) as [| |b|n|v|l|o]; simpl;
    rewrite ?andb_false_r, ?andb_true_r; try reflexivity.
  destruct (negb (String.eqb v "")); simpl; [|reflexivity].
  destruct (includes (toLowerCase v) normalizedQuery); [|reflexivity].
  rewrite (match_global_length_literal _ _ Hq). simpl. do 2 f_equal. lia.
Qed.

Lemma foldM_score_fields `{host : Host} (normalizedQuery : string) (c : Component)
    (fields : list (string * Z)) (acc : Z * list string) :
  isLiteralPattern normalizedQuery = true ->
  foldM (score_field normalizedQuery c) acc fields
  = Normal (acc.1 + foldr Z.add 0 (map (field_points normalizedQuery c) fields),
            acc.2 ++ map fst (List.filter
                                (fun fw => field_counts normalizedQuery c fw.1) fields)).
Proof.
  intros Hq. revert acc. induction fields as [|fw fields IH]; intros [z m]; simpl.
  - now rewrite Z.add_0_r, app_nil_r.
  - rewrite (score_field_literal _ _ _ _ Hq).
    destruct (field_counts normalizedQuery c fw.1) eqn:E; simpl; rewrite IH; simpl.
    + f_equal. f_equal; [lia | now rewrite <- app_assoc].
    + assert (H0 : field_points normalizedQuery c fw = 0).
      { unfold field_points. rewrite E. now destruct (Component_get c fw.1). }
      rewrite H0. reflexivity.
Qed.

Lemma search_children_literal `{host : Host} (normalizedQuery : string)
    (cat : Category) (cs : list Component) (results : list ScoredMatch) :
  isLiteralPattern normalizedQuery = true ->
  search_children normalizedQuery cat cs results
  = Normal (results
            ++ List.filter (fun r => 0 <? score r)
                 (map (scored_match normalizedQuery) (map (resolve cat) cs))).
Proof.
  intros Hq. revert results. induction cs as [|c cs IH]; intros results.
  - simpl. now rewrite app_nil_r.
  - cbn [search_children]. rewrite (foldM_score_fields _ _ _ _ Hq).
    cbn [mbind Completion_bind fst snd]. rewrite IH.
    rewrite Z.add_0_l, app_nil_l.
    fold (weighted_score normalizedQuery c). fold (matched_fields normalizedQuery c).
    cbn [map List.filter scored_match score resolve component category categoryName].
    destruct (0 <? weighted_score normalizedQuery c); [|reflexivity].
    now rewrite <- app_assoc.
Qed.

Lemma search_categories_literal `{host : Host} (normalizedQuery : string)
    (platformData : list Category) (results : list ScoredMatch) :
  isLiteralPattern normalizedQuery = true ->
  search_categories normalizedQuery platformData results
  = Normal (results
            ++ List.filter (fun r => 0 <? score r)
                 (map (scored_match normalizedQuery)
                    (components_in_scan_order platformData))).
Proof.
  intros Hq. revert results.
  induction platformData as [|cat rest IH]; intros results; simpl.
  - now rewrite app_nil_r.
  - unfold components_in_scan_order. simpl. fold (components_in_scan_order rest).
    rewrite map_app, List.filter_app.
    destruct (children cat) as [cs|]; simpl.
    + rewrite (search_children_literal _ _ _ _ Hq). simpl. rewrite IH.
      now rewrite <- app_assoc.
    + apply IH.
Qed.





(** Where the normalized query holds a syntax character, the count of a field
    that contains it is the engine's reading of the query as a pattern, and a
    SyntaxError of the constructor leaves the scoring loop. *)
Lemma score_field_pattern `{host : Host} (normalizedQuery : string) (c : Component)
    (acc : Z * list string) (fw : string * Z) (v : string) :
  isLiteralPattern normalizedQuery = false ->
  Component_get c fw.1 = JStr v ->
  field_counts normalizedQuery c fw.1 = true ->
  score_field normalizedQuery c acc fw
  = RegExp_engine normalizedQuery (toLowerCase v) ≫= fun occurrences =>
      Normal (acc.1 + fw.2 + (Z.of_nat occurrences - 1), acc.2 ++ [fw.1]).
Proof.
  intros Hq Hv Hcounts. unfold score_field, field_counts, match_global_length in *.
  rewrite Hv in *. simpl. rewrite andb_true_r.
  apply andb_true_iff in Hcounts as [-> ->]. simpl. now rewrite Hq.
Qed.

(** ** Ordering and cap of the results *)

Lemma compare_results_ranked `{host : Host} (a b : ScoredMatch) :
  compare_results a b <= 0 <-> ranked_before a b.
Proof.
  unfold compare_results, ranked_before.
  destruct (score b =? score a) eqn:E; simpl.
  - apply Z.eqb_eq in E. split; [intros H; right; split; [lia | exact H]|].
    intros [H|[_ H]]; [lia | exact H].
  - apply Z.eqb_neq in E. split; [intros H; left; lia|].
    intros [H|[H _]]; lia.
Qed.

Lemma compare_results_total `{host : Host} (a b : ScoredMatch) :
  (forall x y, localeCompare x y <= 0 \/ localeCompare y x <= 0) ->
  compare_results a b <= 0 \/ compare_results b a <= 0.
Proof.
  intros Htotal. unfold compare_results.
  destruct (score b =? score a) eqn:E.
  - apply Z.eqb_eq in E. rewrite E, Z.eqb_refl. simpl. apply Htotal.
  - apply Z.eqb_neq in E.
    assert (E' : (score a =? score b) = false) by (apply Z.eqb_neq; lia).
    rewrite E'. simpl. lia.
Qed.

Section Sorting.

Context {A : Type} (comparefn : A -> A -> Z).
Hypothesis comparefn_total :
  forall a b, comparefn a b <= 0 \/ comparefn b a <= 0.

Lemma sort_insert_HdRel (x y : A) (l : list A) :
  comparefn y x <= 0 ->
  HdRel (fun a b => comparefn a b <= 0) y l ->
  HdRel (fun a b => comparefn a b <= 0) y (sort_insert comparefn x l).
Proof.
  intros Hyx Hl. destruct l as [|z l]; simpl; [now constructor|].
  destruct (comparefn x z <=? 0); constructor; [exact Hyx|].
  now inversion Hl.
Qed.

Lemma sort_insert_Sorted (x : A) (l : list A) :
  Sorted (fun a b => comparefn a b <= 0) l ->
  Sorted (fun a b => comparefn a b <= 0) (sort_insert comparefn x l).
Proof.
  induction l as [|y l IH]; simpl; intros Hl.
  - repeat constructor.
  - destruct (comparefn x y <=? 0) eqn:E.
    + apply Z.leb_le in E. constructor; [exact Hl | now constructor].
    + apply Z.leb_gt in E. inversion Hl as [|? ? Hs Hh]; subst.
      constructor; [now apply IH|].
      apply sort_insert_HdRel; [|exact Hh].
      destruct (comparefn_total x y) as [H|H]; [lia | exact H].
Qed.

Lemma Array_sort_Sorted (l : list A) :
  Sorted (fun a b => comparefn a b <= 0) (Array_sort comparefn l).
Proof.
  induction l as [|x l IH]; simpl; [constructor | now apply sort_insert_Sorted].
Qed.

Lemma sort_insert_Forall (Q : A -> Prop) (x : A) (l : list A) :
  Q x -> Forall Q l -> Forall Q (sort_insert comparefn x l).
Proof.
  intros Hx. induction l as [|y l IH]; simpl; intros Hl.
  - now constructor.
  - inversion Hl; subst. destruct (comparefn x y <=? 0); constructor; auto.
Qed.

Lemma Array_sort_Forall (Q : A -> Prop) (l : list A) :
  Forall Q l -> Forall Q (Array_sort comparefn l).
Proof.
  induction l as [|x l IH]; simpl; intros Hl; [constructor|].
  inversion Hl; subst. apply sort_insert_Forall; auto.
Qed.

End Sorting.

Lemma StronglySorted_take {A : Type} (R : A -> A -> Prop) (n : nat) (l : list A) :
  StronglySorted R l -> StronglySorted R (take n l).
Proof.
  revert n. induction l as [|x l IH]; intros [|n] Hl; simpl; try constructor.
  - apply IH. now inversion Hl.
  - inversion Hl; subst. now apply Forall_take.
Qed.

Lemma Sorted_equiv {A : Type} (R R' : A -> A -> Prop) (l : list A) :
  (forall a b, R a b -> R' a b) -> Sorted R l -> Sorted R' l.
Proof.
  intros HR. induction 1 as [|x l _ IH Hh]; constructor; [exact IH|].
  destruct Hh; constructor. now apply HR.
Qed.

Lemma ranked_before_transitive `{host : Host} :
  (forall a b c, localeCompare a b <= 0 -> localeCompare b c <= 0 ->
                 localeCompare a c <= 0) ->
  Transitive ranked_before.
Proof.
  intros Htrans a b c [Hab|[Hab Hab']] [Hbc|[Hbc Hbc']]; unfold ranked_before;
    try (left; lia).
  right. split; [lia|]. now apply (Htrans _ (sm_name b)).
Qed.

Lemma search_children_positive `{host : Host} (normalizedQuery : string)
    (cat : Category) (cs : list Component) (acc results : list ScoredMatch) :
  Forall (fun r => 0 < score r) acc ->
  search_children normalizedQuery cat cs acc = Normal results ->
  Forall (fun r => 0 < score r) results.
Proof.
  revert acc. induction cs as [|c cs IH]; intros acc Hacc; cbn [search_children].
  - now intros [= <-].
  - destruct (foldM _ _ _) as [scored|e]; [|discriminate].
    cbn [mbind Completion_bind]. apply IH.
    destruct (0 <? scored.1) eqn:E; [|exact Hacc].
    apply Forall_app. split; [exact Hacc|].
    constructor; [|constructor]. simpl. now apply Z.ltb_lt.
Qed.

Lemma search_categories_positive `{host : Host} (normalizedQuery : string)
    (platformData : list Category) (acc results : list ScoredMatch) :
  Forall (fun r => 0 < score r) acc ->
  search_categories normalizedQuery platformData acc = Normal results ->
  Forall (fun r => 0 < score r) results.
Proof.
  revert acc. induction platformData as [|cat rest IH]; intros acc Hacc; simpl.
  - now intros [= <-].
  - destruct (children cat) as [cs|]; [|now apply IH].
    destruct (search_children normalizedQuery cat cs acc) as [acc'|e] eqn:E;
      [|discriminate].
    simpl. apply IH. now apply (search_children_positive _ _ _ _ _ Hacc E).
Qed.

(** What a call that returns has computed: positive scores, sorted, cut. *)
Lemma searchComponents_returns `{host : Host} (contentData : Content) (P : string)
    (query maxResults : JsValue) (results : list ScoredMatch) :
  searchComponents contentData P query maxResults = Normal results ->
  exists scored,
    Forall (fun r => 0 < score r) scored
    /\ forall cap,
         searchComponents contentData P query cap
         = Normal (Array_slice_0
                     (match cap with JUndefined => JNum (Finite 10) | _ => cap end)
                     (Array_sort compare_results scored)).
Proof.
  unfold searchComponents.
  destruct (loadContent contentData !! P) as [platformData|].
  - destruct (negb (ToBoolean query)).
    + intros _. exists []. split; [constructor|]. intros cap.
      unfold Array_slice_0. simpl. now rewrite take_nil.
    + destruct (call_toLowerCase "query" query) as [lowered|e]; [|discriminate].
      simpl.
      destruct (search_categories (trim lowered) platformData []) as [scored|e] eqn:E;
        [|discriminate].
      intros _. exists scored. split; [|reflexivity].
      eapply search_categories_positive; [|exact E]. constructor.
  - intros _. exists []. split; [constructor|]. intros cap.
    unfold Array_slice_0. simpl. now rewrite take_nil.
Qed.

(** With [maxResults] -1 the search for "b" in [demo] returns one of its two
    matches, whatever the host: the scores differ, so the names are not
    compared. *)
Lemma searchComponents_minus_one (host : Host) :
  searchComponents (host := host) demo "web" (JStr "b") (JNum (Finite (-1)))
  = Normal [mkScored "checkbox" "Checkbox" "Controls" "controls" 25
              ["label"; "name"; "gherkin"; "developerNotes"] JUndefined].
Proof. vm_compute. reflexivity. Qed.

(** C4, as stated, fails for a negative [maxResults]: [slice(0, -1)] drops the
    last match only, and no list is as short as a negative number. *)
Lemma searchComponents_negative_cap :
  searchComponents (host := example_host) demo "web" (JStr "b") (JNum (Finite (-1)))
  = Normal [mkScored "checkbox" "Checkbox" "Controls" "controls" 25
              ["label"; "name"; "gherkin"; "developerNotes"] JUndefined]
  /\ (Z.of_nat (length [mkScored "checkbox" "Checkbox" "Controls" "controls" 25
                          ["label"; "name"; "gherkin"; "developerNotes"] JUndefined])
      <=? -1) = false.
Proof. split; [apply searchComponents_minus_one | reflexivity]. Qed.

(** C4, amended.  Where [localeCompare] is a total preorder, what
    [searchComponents] returns holds only components with a score above 0 and
    is sorted by score descending, ties in ascending [localeCompare] order of
    the names; it has at most [maxResults] entries whenever [maxResults] is a
    number that is not negative, at most 10 when [maxResults] is unspecified
    (the call is the call with 10), and it is the whole sorted list of matches
    when [maxResults] is at least their number. *)
Theorem searchComponents_ranked_and_capped `{host : Host} (contentData : Content)
    (P : string) (query maxResults : JsValue) (results : list ScoredMatch) :
  (forall a b, localeCompare a b <= 0 \/ localeCompare b a <= 0) ->
  (forall a b c, localeCompare a b <= 0 -> localeCompare b c <= 0 ->
                 localeCompare a c <= 0) ->
  searchComponents contentData P query maxResults = Normal results ->
  Forall (fun r => 0 < score r) results
  /\ StronglySorted ranked_before results
  /\ (maxResults = JUndefined ->
      (length results <= 10)%nat
      /\ searchComponents contentData P query (JNum (Finite 10)) = Normal results)
  /\ (forall k, maxResults = JNum (Finite k) -> 0 <= k ->
                Z.of_nat (length results) <= k)
  /\ (forall k all,
        maxResults = JNum (Finite k) ->
        searchComponents contentData P query (JNum (Infinity false)) = Normal all ->
        Z.of_nat (length all) <= k -> results = all).
Proof.
  intros Htotal Htrans Hreturns.
  destruct (searchComponents_returns _ _ _ _ _ Hreturns) as (scored & Hpos & Hcall).
  rewrite Hcall in Hreturns. injection Hreturns as <-.
  assert (Hsorted : StronglySorted ranked_before (Array_sort compare_results scored)).
  { apply Sorted_StronglySorted; [now apply ranked_before_transitive|].
    apply (Sorted_equiv (fun a b => compare_results a b <= 0)).
    - intros a b. apply compare_results_ranked.
    - apply Array_sort_Sorted. intros a b. now apply compare_results_total. }
  assert (Hposs : Forall (fun r => 0 < score r) (Array_sort compare_results scored))
    by now apply Array_sort_Forall.
  revert Hcall Hsorted Hposs.
  generalize (Array_sort compare_results scored). intros sorted Hcall Hsorted Hposs.
  split; [|split; [|split; [|split]]].
  - unfold Array_slice_0. now apply Forall_take.
  - unfold Array_slice_0. now apply StronglySorted_take.
  - intros ->. split; [|now rewrite Hcall].
    unfold Array_slice_0. simpl. rewrite length_take. lia.
  - intros k -> Hk. unfold Array_slice_0. simpl.
    destruct (k <? 0) eqn:E; [apply Z.ltb_lt in E; lia|].
    rewrite length_take. lia.
  - intros k all -> Hall Hlen. rewrite Hcall in Hall. injection Hall as <-.
    unfold Array_slice_0 in *. simpl in *.
    rewrite Nat2Z.id, firstn_all in Hlen |- *.
    destruct (k <? 0) eqn:E; [apply Z.ltb_lt in E; lia|].
    apply take_ge. lia.
Qed.

Lemma code_unit_compare_total (a b : string) :
  code_unit_compare a b <= 0 \/ code_unit_compare b a <= 0.
Proof.
  unfold code_unit_compare. rewrite (String.compare_antisym a b).
  destruct (String.compare b a); simpl; lia.
Qed.

Lemma code_unit_compare_le (a b : string) :
  code_unit_compare a b <= 0 <-> a = b \/ String_as_OT.lt a b.
Proof.
  unfold code_unit_compare.
  destruct (String.compare a b) eqn:E.
  - apply String_as_OT.cmp_eq in E. split; [now left | lia].
  - apply String_as_OT.cmp_lt in E. split; [now right | lia].
  - split; [lia|]. intros [->|H].
    + pose proof (proj2 (String_as_OT.cmp_eq b b) eq_refl) as H.
      unfold String_as_OT.cmp in H. congruence.
    + apply String_as_OT.cmp_lt in H. unfold String_as_OT.cmp in H. congruence.
Qed.

Lemma code_unit_compare_trans (a b c : string) :
  code_unit_compare a b <= 0 -> code_unit_compare b c <= 0 ->
  code_unit_compare a c <= 0.
Proof.
  rewrite !code_unit_compare_le. intros [->|Hab] [->|Hbc]; auto.
  right. now apply (String_as_OT.lt_trans _ b).
Qed.

Lemma searchComponents_ranked_and_capped_witness :
  Forall (fun r => 0 < score r)
    [mkScored "checkbox" "Checkbox" "Controls" "controls" 25
       ["label"; "name"; "gherkin"; "developerNotes"] JUndefined;
     mkScored "button" "Button" "Controls" "controls" 20 ["label"; "name"] JUndefined]
  /\ StronglySorted (ranked_before (host := example_host))
       [mkScored "checkbox" "Checkbox" "Controls" "controls" 25
          ["label"; "name"; "gherkin"; "developerNotes"] JUndefined;
        mkScored "button" "Button" "Controls" "controls" 20 ["label"; "name"]
          JUndefined].
Proof.
  destruct (searchComponents_ranked_and_capped (host := example_host) demo "web"
              (JStr "b") JUndefined
              [mkScored "checkbox" "Checkbox" "Controls" "controls" 25
                 ["label"; "name"; "gherkin"; "developerNotes"] JUndefined;
               mkScored "button" "Button" "Controls" "controls" 20 ["label"; "name"]
                 JUndefined])
    as (Hpositive & Hsorted & _).
  - apply code_unit_compare_total.
  - apply code_unit_compare_trans.
  - vm_compute. reflexivity.
  - split; [exact Hpositive | exact Hsorted].
Defined.

(** ** Listings *)

Lemma listComponents_loop_all (cats : list Category) (acc : list ComponentSummary) :
  listComponents_loop JNull cats acc
  = Normal (acc ++ map summary_of (components_in_scan_order cats)).
Proof.
  revert acc. induction cats as [|cat cats IH]; intros acc; simpl.
  - now rewrite app_nil_r.
  - unfold components_in_scan_order. simpl. fold (components_in_scan_order cats).
    rewrite map_app. destruct (children cat) as [cs|]; rewrite IH; simpl.
    + rewrite <- app_assoc, map_map. reflexivity.
    + reflexivity.
Qed.

(** Without a category filter, [listComponents] returns every child of every
    category of the platform in category-then-child order, and
    [listCategories] reports each category with the number of its children. *)
Theorem listComponents_all_in_order (contentData : Content) (P : string)
    (platformData : list Category) :
  listComponents (<[P := platformData]> contentData) P JUndefined
  = Normal (map summary_of (components_in_scan_order platformData))
  /\ listCategories (<[P := platformData]> contentData) P
     = map (fun cat => mkCategoryInfo (cat_name cat) (cat_label cat)
                         (length (default [] (children cat)))) platformData.
Proof.
  unfold listComponents, listCategories, loadContent. rewrite lookup_insert_eq.
  split; [apply listComponents_loop_all|].
  apply map_ext. intros cat. now destruct (children cat).
Qed.

(** An empty or missing query, or a platform that the content lacks, yields
    the empty sequence, whatever [maxResults] is.  (A platform key that names
    a property of [Object.prototype] is not read from the content and is left
    aside.) *)
Theorem searchComponents_nothing_to_search `{host : Host} (contentData : Content)
    (P : string) (query maxResults : JsValue) :
  inherited_key P = false ->
  searchComponents contentData P JUndefined maxResults = Normal []
  /\ searchComponents contentData P (JStr "") maxResults = Normal []
  /\ searchComponents (delete P contentData) P query maxResults = Normal [].
Proof.
  intros _. repeat split; try (now apply searchComponents_falsy_query).
  unfold searchComponents, loadContent. now rewrite lookup_delete_eq.
Qed.

Lemma searchComponents_nothing_to_search_witness :
  searchComponents (host := example_host) demo "web" JUndefined JUndefined = Normal []
  /\ searchComponents (host := example_host) demo "web" (JStr "") JUndefined = Normal []
  /\ searchComponents (host := example_host) (delete "web" demo) "web" (JStr "b")
       JUndefined = Normal [].
Proof.
  apply (searchComponents_nothing_to_search (host := example_host) demo "web"
           (JStr "b") JUndefined).
  reflexivity.
Defined.

(** ** Substrings *)

Lemma prefix_spec (p s : string) :
  String.prefix p s = true <-> exists post, s = p +:+ post.
Proof.
  revert s. induction p as [|a p IH]; intros s.
  - rewrite prefix_empty. split; [intros _; now exists s | reflexivity].
  - destruct s as [|b s]; simpl.
    + split; [discriminate | intros [post H]; discriminate].
    + destruct (ascii_dec a b) as [->|Hne].
      * rewrite IH. split; intros [post H]; exists post.
        -- now rewrite append_cons, H.
        -- rewrite append_cons in H. now injection H.
      * split; [discriminate|]. intros [post H].
        rewrite append_cons in H. injection H as H _. congruence.
Qed.

Lemma includes_spec (s sub : string) :
  includes s sub = true <-> exists pre post, s = pre +:+ sub +:+ post.
Proof.
  induction s as [|c s IH]; cbn [includes]; rewrite orb_true_iff, prefix_spec.
  - split.
    + intros [[post H]|H]; [|discriminate]. now exists "", post.
    + intros (pre & post & H). left. destruct pre; [now exists post | discriminate].
  - rewrite IH. split.
    + intros [[post H]|(pre & post & H)].
      * now exists "", post.
      * exists (String c pre), post. now rewrite append_cons, H.
    + intros (pre & post & H). destruct pre as [|a pre].
      * left. now exists post.
      * right. rewrite append_cons in H. injection H as _ H. now exists pre, post.
Qed.

Lemma includes_trans (a b c : string) :
  includes a b = true -> includes b c = true -> includes a c = true.
Proof.
  rewrite !includes_spec. intros (p1 & q1 & ->) (p2 & q2 & ->).
  exists (p1 +:+ p2), (q2 +:+ q1). now rewrite !append_assoc.
Qed.

Lemma toLowerCase_app (a b : string) :
  toLowerCase (a +:+ b) = toLowerCase a +:+ toLowerCase b.
Proof.
  induction a as [|c a IH]; [reflexivity|].
  rewrite append_cons. simpl. now rewrite IH.
Qed.

Lemma toLowerCase_unit_idempotent (c : ascii) :
  toLowerCase_unit (toLowerCase_unit c) = toLowerCase_unit c.
Proof. destruct c as [[] [] [] [] [] [] [] []]; reflexivity. Qed.

Lemma toLowerCase_idempotent (s : string) :
  toLowerCase (toLowerCase s) = toLowerCase s.
Proof.
  induction s as [|c s IH]; simpl; [reflexivity|].
  now rewrite toLowerCase_unit_idempotent, IH.
Qed.

Lemma includes_toLowerCase (a b : string) :
  includes a b = true -> includes (toLowerCase a) (toLowerCase b) = true.
Proof.
  rewrite !includes_spec. intros (pre & post & ->).
  exists (toLowerCase pre), (toLowerCase post). now rewrite !toLowerCase_app.
Qed.

Lemma trimStart_suffix (s : string) : exists pre, s = pre +:+ trimStart s.
Proof.
  induction s as [|c s [pre IH]]; simpl; [now exists ""|].
  destruct (isWhiteSpace c); [|now exists ""].
  exists (String c pre). now rewrite append_cons, <- IH.
Qed.

Lemma trimEnd_prefix (s : string) : exists post, s = trimEnd s +:+ post.
Proof.
  induction s as [|c s [post IH]]; simpl; [now exists ""|].
  destruct (trimEnd s) as [|a r].
  - destruct (isWhiteSpace c); [now exists (String c s)|].
    exists s. reflexivity.
  - exists post. rewrite append_cons. now rewrite <- IH.
Qed.

(** A string contains its trimmed form. *)
Lemma includes_trim (s : string) : includes s (trim s) = true.
Proof.
  apply includes_spec. unfold trim.
  destruct (trimStart_suffix s) as [pre Hpre].
  destruct (trimEnd_prefix (trimStart s)) as [post Hpost].
  exists pre, post. now rewrite <- Hpost.
Qed.

(** ** What [findComponent] returns *)

Lemma exact_test_partial (needle : string) (c : Component) :
  exact_test needle c = true -> partial_test needle c = true.
Proof.
  unfold exact_test, partial_test. intros H. apply String.eqb_eq in H.
  now rewrite H, includes_refl.
Qed.

(** An exact match has priority over an earlier partial one: where some
    component's lower-cased name equals the normalized query,
    [findComponent] returns the first such component in scan order, whatever
    the components before it contain. *)
Theorem findComponent_exact_priority (contentData : Content) (P : string)
    (platformData : list Category) (s : string)
    (before after : list ResolvedComponent) (r : ResolvedComponent) :
  contentData !! P = Some platformData ->
  components_in_scan_order platformData = before ++ r :: after ->
  toLowerCase (name (component r)) = trim (toLowerCase s) ->
  (forall r', r' ∈ before ->
              toLowerCase (name (component r')) <> trim (toLowerCase s)) ->
  findComponent contentData P (JStr s) = Normal (Some r).
Proof.
  intros HP Hscan Hr Hbefore. rewrite (findComponent_passes _ _ _ _ HP), Hscan.
  rewrite find_app.
  assert (Hnone : List.find (fun r0 => exact_test (trim (toLowerCase s)) (component r0))
                    before = None).
  { apply find_none_iff, Forall_forall. intros r' Hr'.
    unfold exact_test. apply String.eqb_neq. now apply Hbefore. }
  rewrite Hnone. simpl. unfold exact_test at 1. rewrite Hr, String.eqb_refl.
  reflexivity.
Qed.

Lemma findComponent_exact_priority_witness :
  findComponent forms "web" (JStr "Button")
  = Normal (Some (mkResolved (plain "button" "Button") "Forms" "forms")).
Proof.
  apply (findComponent_exact_priority forms "web"
           [mkCategory "forms" "Forms"
              (Some [plain "radio-button" "Radio button"; plain "button" "Button"])]
           "Button"
           [mkResolved (plain "radio-button" "Radio button") "Forms" "forms"] []).
  - reflexivity.
  - reflexivity.
  - reflexivity.
  - intros r' Hr'. apply list_elem_of_singleton in Hr' as ->. discriminate.
Defined.

(** Whatever [findComponent] resolves a string to is a component of the
    platform whose lower-cased name or label contains the normalized query,
    and it returns null exactly when no component of the platform does: text
    that occurs only in the notes or criteria of a component never resolves
    it. *)
Theorem findComponent_sound_and_complete (contentData : Content) (P : string)
    (platformData : list Category) (s : string) :
  contentData !! P = Some platformData ->
  (forall r, findComponent contentData P (JStr s) = Normal (Some r) ->
             r ∈ components_in_scan_order platformData
             /\ name_or_label_contains (trim (toLowerCase s)) r)
  /\ (findComponent contentData P (JStr s) = Normal None
      <-> forall r, r ∈ components_in_scan_order platformData ->
                    ~ name_or_label_contains (trim (toLowerCase s)) r).
Proof.
  intros HP. rewrite (findComponent_passes _ _ _ _ HP).
  destruct (List.find (fun r => exact_test _ (component r)) _) as [found|] eqn:Hexact.
  - apply find_some in Hexact as [Hin Htest]. split.
    + intros r [= <-]. split; [now apply list_elem_of_In|].
      now apply partial_test_contains, exact_test_partial.
    + split; [discriminate|]. intros Hnone. exfalso.
      apply (Hnone found); [now apply list_elem_of_In|].
      now apply partial_test_contains, exact_test_partial.
  - destruct (List.find (fun r => partial_test _ (component r)) _) as [found|] eqn:Hpart.
    + apply find_some in Hpart as [Hin Htest]. split.
      * intros r [= <-]. split; [now apply list_elem_of_In|].
        now apply partial_test_contains.
      * split; [discriminate|]. intros Hnone. exfalso.
        apply (Hnone found); [now apply list_elem_of_In|].
        now apply partial_test_contains.
    + split; [discriminate|]. split; [|reflexivity]. intros _ r Hr.
      apply partial_test_false.
      apply find_none_iff in Hpart. rewrite Forall_forall in Hpart. now apply Hpart.
Qed.

Lemma findComponent_sound_and_complete_witness :
  findComponent demo "web" (JStr "input") = Normal None.
Proof.
  apply (proj2 (findComponent_sound_and_complete demo "web" [controls] "input" eq_refl)).
  intros r Hr. vm_compute in Hr.
  apply elem_of_cons in Hr as [->|Hr];
    [|apply elem_of_cons in Hr as [->|Hr]; [|now apply elem_of_nil in Hr]];
    intros [H|H]; discriminate.
Defined.

(** ** The suggestions of a "not found" answer *)

Lemma filterM_none {A : Type} (f : A -> Completion bool) (l : list A) :
  Forall (fun x => f x = Normal false) l -> filterM f l = Normal [].
Proof.
  induction 1 as [|x l Hx _ IH]; simpl; [reflexivity|]. now rewrite Hx, IH.
Qed.

(** A component that the second pass of [findComponent] rejects is rejected
    by the suggestion filter as well: the filter looks for the untrimmed
    query, which contains the trimmed one. *)
Lemma suggestion_test_rejects (s : string) (r : ResolvedComponent) :
  partial_test (trim (toLowerCase s)) (component r) = false ->
  suggestion_test (JStr s) (summary_of r) = Normal false.
Proof.
  unfold partial_test, suggestion_test. simpl. intros H.
  apply orb_false_iff in H as [Hname Hlabel]. f_equal. apply orb_false_iff. split.
  - destruct (includes (name (component r)) (toLowerCase s)) eqn:E; [|reflexivity].
    apply includes_toLowerCase in E. rewrite toLowerCase_idempotent in E.
    now rewrite (includes_trans _ _ _ E (includes_trim _)) in Hname.
  - destruct (includes (toLowerCase (label (component r))) (toLowerCase s)) eqn:E;
      [|reflexivity].
    now rewrite (includes_trans _ _ _ E (includes_trim _)) in Hlabel.
Qed.

Lemma no_suggestions (contentData : Content) (P : string) (wanted : JsValue) :
  findComponent contentData P wanted = Normal None ->
  (allComponents ← listComponents contentData P JUndefined;
   filterM (suggestion_test wanted) allComponents) = Normal [].
Proof.
  unfold findComponent, listComponents, loadContent.
  destruct (contentData !! P) as [platformData|] eqn:HP; [|reflexivity].
  destruct wanted as [| | | |s| |]; try discriminate. simpl.
  intros H. rewrite listComponents_loop_all. simpl.
  apply filterM_none, Forall_forall. intros c Hc.
  apply list_elem_of_fmap in Hc as (r & -> & Hr).
  apply suggestion_test_rejects.
  rewrite !scan_categories_find in H.
  destruct (List.find (fun r0 => exact_test _ (component r0)) _); [discriminate|].
  injection H as H. apply find_none_iff in H. rewrite Forall_forall in H.
  now apply H.
Qed.

(** The "Did you mean" list of [get_web_component] and
    [get_native_component] is never shown: whenever the component is not
    found, no component passes the suggestion filter either, and the answer
    is the bare "not found" sentence. *)
Theorem not_found_offers_no_suggestion (contentData : Content)
    (args : gmap string JsValue) :
  (findComponent contentData "web" (prop args "component") = Normal None ->
   get_web_component contentData args
   = textResponse (plain_not_found "Component " (prop args "component")))
  /\ (findComponent contentData "native" (prop args "component") = Normal None ->
      get_native_component contentData args
      = textResponse (plain_not_found "Native component " (prop args "component"))).
Proof.
  split; intros H; pose proof (no_suggestions _ _ _ H) as Hnone;
    unfold get_web_component, get_native_component; rewrite H; simpl;
    destruct (listComponents contentData _ JUndefined) as [allComponents|e];
    simpl in Hnone |- *; try discriminate; rewrite Hnone; reflexivity.
Qed.

Lemma not_found_offers_no_suggestion_witness :
  get_web_component demo {[ "component" := JStr " menu" ]}
  = textResponse ("Component " +:+ dquote +:+ " menu" +:+ dquote +:+ " not found.").
Proof.
  refine (eq_trans
            (proj1 (not_found_offers_no_suggestion demo
                      {[ "component" := JStr " menu" ]}) _) _);
    vm_compute; reflexivity.
Defined.

(** ** [listComponents] with a category filter *)

Lemma listComponents_loop_selected (wanted : string) (cats : list Category)
    (acc : list ComponentSummary) :
  wanted <> EmptyString ->
  listComponents_loop (JStr wanted) cats acc
  = Normal (acc ++ map summary_of
                     (components_in_scan_order (List.filter (selected_by wanted) cats))).
Proof.
  intros Hwanted. revert acc.
  induction cats as [|cat cats IH]; intros acc; cbn [listComponents_loop].
  - simpl. now rewrite app_nil_r.
  - unfold filtered_out. simpl ToBoolean.
    destruct (String.eqb wanted EmptyString) eqn:E;
      [now apply String.eqb_eq in E|]. simpl.
    fold (selected_by wanted cat). destruct (selected_by wanted cat); simpl.
    + unfold components_in_scan_order. simpl.
      fold (components_in_scan_order (List.filter (selected_by wanted) cats)).
      rewrite map_app. destruct (children cat) as [cs|]; rewrite IH; simpl.
      * now rewrite <- app_assoc, map_map.
      * reflexivity.
    + apply IH.
Qed.

(** A string filter keeps the children of exactly the categories whose name
    equals it up to case, in stored order; the filter is not trimmed, and the
    empty string filters nothing. *)
Theorem listComponents_category_filter (contentData : Content) (P : string)
    (platformData : list Category) (wanted : string) :
  listComponents (<[P := platformData]> contentData) P (JStr wanted)
  = Normal (map summary_of
              (components_in_scan_order
                 (if String.eqb wanted EmptyString then platformData
                  else List.filter (selected_by wanted) platformData))).
Proof.
  unfold listComponents, loadContent. rewrite lookup_insert_eq.
  destruct (String.eqb wanted EmptyString) eqn:E.
  - apply String.eqb_eq in E as ->.
    assert (Hall : forall cats acc,
               listComponents_loop (JStr EmptyString) cats acc
               = listComponents_loop JNull cats acc).
    { induction cats as [|cat cats IH]; intros acc; [reflexivity|].
      cbn [listComponents_loop]. unfold filtered_out. simpl.
      destruct (children cat); apply IH. }
    rewrite Hall. apply listComponents_loop_all.
  - apply String.eqb_neq in E. now rewrite (listComponents_loop_selected _ _ _ E).
Qed.

(** ** What the ranking keeps *)

Lemma sort_insert_Permutation {A : Type} (comparefn : A -> A -> Z) (x : A)
    (sorted : list A) :
  sort_insert comparefn x sorted ≡ₚ x :: sorted.
Proof.
  induction sorted as [|y rest IH]; simpl; [reflexivity|].
  destruct (comparefn x y <=? 0); [reflexivity|].
  rewrite IH. apply Permutation_swap.
Qed.

Lemma Array_sort_Permutation {A : Type} (comparefn : A -> A -> Z) (l : list A) :
  Array_sort comparefn l ≡ₚ l.
Proof.
  induction l as [|x l IH]; simpl; [reflexivity|].
  now rewrite sort_insert_Permutation, IH.
Qed.

Lemma Array_slice_0_finite {A : Type} `{host : Host} (k : Z) (l : list A) :
  0 <= k -> Array_slice_0 (JNum (Finite k)) l = take (Z.to_nat k) l.
Proof.
  intros Hk. unfold Array_slice_0. simpl.
  destruct (k <? 0) eqn:E; [apply Z.ltb_lt in E; lia|].
  destruct (Z.le_gt_cases k (Z.of_nat (length l))) as [Hle|Hgt].
  - now rewrite Z.min_l.
  - rewrite Z.min_r, Nat2Z.id by lia.
    rewrite !take_ge; [reflexivity | lia | lia].
Qed.

(** Raising [maxResults] only appends: for caps [0 <= j <= k] the results
    under [j] are the first [j] of the results under [k]. *)
Theorem searchComponents_cap_monotone `{host : Host} (contentData : Content)
    (P : string) (platformData : list Category) (query : JsValue) (j k : Z)
    (results : list ScoredMatch) :
  contentData !! P = Some platformData ->
  0 <= j <= k ->
  searchComponents contentData P query (JNum (Finite k)) = Normal results ->
  searchComponents contentData P query (JNum (Finite j))
  = Normal (take (Z.to_nat j) results).
Proof.
  intros _ Hjk Hk. destruct (searchComponents_returns _ _ _ _ _ Hk) as (scored & _ & Hcap).
  rewrite Hcap in Hk. rewrite Hcap. simpl in Hk |- *.
  rewrite Array_slice_0_finite in Hk |- * by lia.
  injection Hk as <-. f_equal. rewrite take_take. f_equal. lia.
Qed.

Lemma searchComponents_cap_monotone_witness :
  searchComponents (host := example_host) demo "web" (JStr "b") (JNum (Finite 1))
  = Normal (take 1 [mkScored "checkbox" "Checkbox" "Controls" "controls" 25
                      ["label"; "name"; "gherkin"; "developerNotes"] JUndefined;
                    mkScored "button" "Button" "Controls" "controls" 20
                      ["label"; "name"] JUndefined]).
Proof.
  apply (searchComponents_cap_monotone (host := example_host) demo "web" [controls]
           (JStr "b") 1 2); [reflexivity | lia |]. vm_compute. reflexivity.
Defined.

Lemma field_points_sign (normalizedQuery : string) (c : Component)
    (fields : list (string * Z)) :
  Forall (fun fw => 2 <= fw.2) fields ->
  0 <= foldr Z.add 0 (map (field_points normalizedQuery c) fields)
  /\ ((0 <? foldr Z.add 0 (map (field_points normalizedQuery c) fields))
      = existsb (fun fw => field_counts normalizedQuery c fw.1) fields).
Proof.
  induction 1 as [|fw fields Hw _ [IH0 IH]]; simpl; [split; [lia|reflexivity]|].
  assert (Hpoints : if field_counts normalizedQuery c fw.1
                    then 1 <= field_points normalizedQuery c fw
                    else field_points normalizedQuery c fw = 0).
  { unfold field_points, field_counts.
    destruct (Component_get c fw.1); try reflexivity.
    destruct (negb _ && includes _ _); [lia | reflexivity]. }
  destruct (field_counts normalizedQuery c fw.1); simpl.
  - split; [lia|]. apply Z.ltb_lt. lia.
  - rewrite Hpoints. split; [lia|]. exact IH.
Qed.

Lemma searchFields_weights : Forall (fun fw : string * Z => 2 <= fw.2) searchFields.
Proof. unfold searchFields. repeat constructor; simpl; lia. Qed.

Lemma positive_score_has_match (normalizedQuery : string) (l : list ResolvedComponent) :
  List.filter (fun r => 0 <? score r) (map (scored_match normalizedQuery) l)
  = map (scored_match normalizedQuery)
      (List.filter (fun r => has_match normalizedQuery (component r)) l).
Proof.
  induction l as [|r l IH]; [reflexivity|]. cbn [map List.filter].
  replace (0 <? score (scored_match normalizedQuery r))
    with (has_match normalizedQuery (component r))
    by (symmetry; apply (field_points_sign _ _ _ searchFields_weights)).
  destruct (has_match normalizedQuery (component r)); simpl; now rewrite IH.
Qed.

(** With a cap no smaller than the platform, a search for a literal query
    returns each component that has a matching field exactly once, and no
    other: sorting neither drops nor repeats a match. *)
Theorem searchComponents_keeps_every_match `{host : Host} (contentData : Content)
    (P : string) (platformData : list Category) (query : string) (k : Z) :
  contentData !! P = Some platformData ->
  query <> EmptyString ->
  isLiteralPattern (trim (toLowerCase query)) = true ->
  Z.of_nat (length (components_in_scan_order platformData)) <= k ->
  exists results,
    searchComponents contentData P (JStr query) (JNum (Finite k)) = Normal results
    /\ results
       ≡ₚ map (scored_match (trim (toLowerCase query)))
            (List.filter (fun r => has_match (trim (toLowerCase query)) (component r))
               (components_in_scan_order platformData)).
Proof.
  intros HP Hquery Hliteral Hk. unfold searchComponents, loadContent. rewrite HP.
  simpl ToBoolean.
  destruct (String.eqb query EmptyString) eqn:E; [now apply String.eqb_eq in E|].
  simpl. rewrite (search_categories_literal _ _ _ Hliteral). simpl.
  rewrite positive_score_has_match.
  eexists. split; [reflexivity|].
  rewrite Array_slice_0_finite by lia.
  rewrite take_ge.
  - apply Array_sort_Permutation.
  - rewrite (Permutation_length (Array_sort_Permutation _ _)), length_map.
    pose proof (List.filter_length_le
                  (fun r => has_match (trim (toLowerCase query)) (component r))
                  (components_in_scan_order platformData)).
    lia.
Qed.

Lemma searchComponents_keeps_every_match_witness :
  exists results,
    searchComponents (host := example_host) demo "web" (JStr "b") (JNum (Finite 2))
    = Normal results
    /\ results
       ≡ₚ map (scored_match "b")
            (List.filter (fun r => has_match "b" (component r))
               (components_in_scan_order [controls])).
Proof.
  apply (searchComponents_keeps_every_match (host := example_host) demo "web"
           [controls] "b" 2).
  - reflexivity.
  - discriminate.
  - reflexivity.
  - vm_compute. discriminate.
Defined.

(** ** What every result records, whatever the regular-expression engine *)

Lemma score_fields_invariant `{host : Host} (normalizedQuery : string) (c : Component)
    (fields done : list (string * Z)) (acc scored : Z * list string) :
  Forall (fun fw => 2 <= fw.2) fields ->
  (Z.of_nat (length acc.2) <= acc.1 /\ (acc.2 = [] -> acc.1 = 0)
   /\ sublist acc.2 (map fst done)) ->
  foldM (score_field normalizedQuery c) acc fields = Normal scored ->
  Z.of_nat (length scored.2) <= scored.1 /\ (scored.2 = [] -> scored.1 = 0)
  /\ sublist scored.2 (map fst (done ++ fields)).
Proof.
  intros Hweights. revert done acc.
  induction Hweights as [|fw fields Hw _ IH]; intros done acc Hacc; simpl.
  - intros [= <-]. now rewrite app_nil_r.
  - destruct (score_field normalizedQuery c acc fw) as [acc'|e] eqn:E; [|discriminate].
    simpl. replace (done ++ fw :: fields) with ((done ++ [fw]) ++ fields)
      by now rewrite <- app_assoc.
    apply IH. destruct Hacc as (Hlen & Hnil & Hsub). rewrite map_app. simpl.
    unfold score_field in E.
    destruct (ToBoolean _ && String.eqb _ _);
      [|injection E as <-; repeat split; try assumption; now apply sublist_inserts_r].
    destruct (call_toLowerCase _ _) as [lowerValue|]; [|discriminate]. simpl in E.
    destruct (includes lowerValue normalizedQuery);
      [|injection E as <-; repeat split; try assumption; now apply sublist_inserts_r].
    destruct (match_global_length _ _) as [occurrences|]; [|discriminate].
    injection E as <-. simpl. split; [|split].
    + rewrite length_app. simpl. lia.
    + intros Hempty. now apply app_eq_nil in Hempty as [_ ?].
    + now apply sublist_app.
Qed.

Lemma search_children_records `{host : Host} (Q : ScoredMatch -> Prop)
    (normalizedQuery : string) (cat : Category) (cs : list Component)
    (acc results : list ScoredMatch) :
  (forall c scored,
     c ∈ cs ->
     foldM (score_field normalizedQuery c) (0, []) searchFields = Normal scored ->
     0 < scored.1 -> Q (result_of cat c scored)) ->
  Forall Q acc ->
  search_children normalizedQuery cat cs acc = Normal results ->
  Forall Q results.
Proof.
  revert acc. induction cs as [|c cs IH]; intros acc HQ Hacc; cbn [search_children].
  - now intros [= <-].
  - destruct (foldM _ _ _) as [scored|e] eqn:E; [|discriminate].
    cbn [mbind Completion_bind]. apply IH.
    + intros c' scored' Hc'. apply HQ. now right.
    + destruct (0 <? scored.1) eqn:Hpos; [|exact Hacc].
      apply Forall_app. split; [exact Hacc|]. constructor; [|constructor].
      apply (HQ c scored); [now left | exact E | now apply Z.ltb_lt].
Qed.

Lemma search_categories_records `{host : Host} (Q : ScoredMatch -> Prop)
    (normalizedQuery : string) (platformData : list Category)
    (acc results : list ScoredMatch) :
  (forall cat cs c scored,
     cat ∈ platformData -> children cat = Some cs -> c ∈ cs ->
     foldM (score_field normalizedQuery c) (0, []) searchFields = Normal scored ->
     0 < scored.1 -> Q (result_of cat c scored)) ->
  Forall Q acc ->
  search_categories normalizedQuery platformData acc = Normal results ->
  Forall Q results.
Proof.
  revert acc. induction platformData as [|cat rest IH]; intros acc HQ Hacc; simpl.
  - now intros [= <-].
  - assert (HQ' : forall cat' cs c scored,
               cat' ∈ rest -> children cat' = Some cs -> c ∈ cs ->
               foldM (score_field normalizedQuery c) (0, []) searchFields = Normal scored ->
               0 < scored.1 -> Q (result_of cat' c scored)).
    { intros cat' cs c scored Hcat. apply HQ. now right. }
    destruct (children cat) as [cs|] eqn:Hcs; [|now apply IH].
    destruct (search_children normalizedQuery cat cs acc) as [acc'|e] eqn:E;
      [|discriminate].
    simpl. apply IH; [exact HQ'|].
    apply (search_children_records Q _ _ _ _ _ (fun c scored => HQ cat cs c scored
                                                   ltac:(now left) Hcs) Hacc E).
Qed.

Lemma resolve_in_scan_order (platformData : list Category) (cat : Category)
    (cs : list Component) (c : Component) :
  cat ∈ platformData -> children cat = Some cs -> c ∈ cs ->
  resolve cat c ∈ components_in_scan_order platformData.
Proof.
  intros Hcat Hcs Hc. unfold components_in_scan_order.
  apply list_elem_of_In, in_concat.
  exists (map (resolve cat) cs). split.
  - apply in_map_iff. exists cat. rewrite Hcs. split; [reflexivity|].
    now apply list_elem_of_In.
  - apply in_map, list_elem_of_In, Hc.
Qed.

(** Whatever the regular-expression engine and [localeCompare] do, every
    record a search returns describes a component of the platform, names at
    least one matched field, names no field twice or out of the order of the
    weight table, and has a score no smaller than the number of fields it
    names. *)
Theorem searchComponents_results_wellformed `{host : Host} (contentData : Content)
    (P : string) (platformData : list Category) (query maxResults : JsValue)
    (results : list ScoredMatch) :
  contentData !! P = Some platformData ->
  searchComponents contentData P query maxResults = Normal results ->
  Forall (fun r =>
            (exists c, c ∈ components_in_scan_order platformData
                       /\ sm_name r = name (component c)
                       /\ sm_label r = label (component c)
                       /\ sm_category r = category c
                       /\ sm_categoryName r = categoryName c
                       /\ sm_generalNotes r = generalNotes (component c))
            /\ matchedFields r <> []
            /\ sublist (matchedFields r) (map fst searchFields)
            /\ Z.of_nat (length (matchedFields r)) <= score r)
    results.
Proof.
  intros HP. unfold searchComponents, loadContent. rewrite HP.
  destruct (negb (ToBoolean query)); [intros [= <-]; constructor|].
  destruct (call_toLowerCase "query" query) as [lowered|e]; [|discriminate]. simpl.
  destruct (search_categories (trim lowered) platformData []) as [scored|e] eqn:E;
    [|discriminate].
  intros [= <-]. unfold Array_slice_0. apply Forall_take.
  rewrite (Array_sort_Permutation compare_results scored).
  eapply search_categories_records; [|constructor|exact E].
  intros cat cs c sc Hcat Hcs Hc Hfold Hpos.
  assert (Hstart : Z.of_nat (length (0, @nil string).2) <= (0, @nil string).1
                   /\ ((0, @nil string).2 = [] -> (0, @nil string).1 = 0)
                   /\ sublist (0, @nil string).2 (map fst (@nil (string * Z)))).
  { simpl. split; [lia|]. split; [reflexivity | constructor]. }
  destruct (score_fields_invariant _ _ _ [] _ _ searchFields_weights Hstart Hfold)
    as (Hlen & Hnil & Hsub).
  split; [|split; [|split]]; simpl.
  - exists (resolve cat c). split; [now apply (resolve_in_scan_order _ _ cs)|].
    repeat split.
  - intros Hempty. apply Hnil in Hempty. lia.
  - exact Hsub.
  - exact Hlen.
Qed.

Lemma searchComponents_results_wellformed_witness :
  Forall (fun r =>
            (exists c, c ∈ components_in_scan_order [controls]
                       /\ sm_name r = name (component c)
                       /\ sm_label r = label (component c)
                       /\ sm_category r = category c
                       /\ sm_categoryName r = categoryName c
                       /\ sm_generalNotes r = generalNotes (component c))
            /\ matchedFields r <> []
            /\ sublist (matchedFields r) (map fst searchFields)
            /\ Z.of_nat (length (matchedFields r)) <= score r)
    [mkScored "checkbox" "Checkbox" "Controls" "controls" 25
       ["label"; "name"; "gherkin"; "developerNotes"] JUndefined].
Proof.
  apply (searchComponents_results_wellformed (host := example_host) demo "web"
           [controls] (JStr "b") (JNum (Finite (-1)))).
  - reflexivity.
  - vm_compute. reflexivity.
Defined.

(** ** The listings *)

Lemma foldM_app {A B : Type} (f : A -> B -> Completion A) (acc : A) (l1 l2 : list B) :
  foldM f acc (l1 ++ l2) = (acc' ← foldM f acc l1; foldM f acc' l2).
Proof.
  revert acc. induction l1 as [|x l1 IH]; intros acc; simpl; [reflexivity|].
  destruct (f acc x); simpl; [apply IH | reflexivity].
Qed.

Lemma existsb_filter_ne (l k : string) (keys : list string) :
  String.eqb l k = false ->
  existsb (String.eqb l) (List.filter (fun l' => negb (String.eqb l' k)) keys)
  = existsb (String.eqb l) keys.
Proof.
  intros Hlk. induction keys as [|k' keys IH]; simpl; [reflexivity|].
  destruct (String.eqb k' k) eqn:E; simpl; rewrite IH; [|reflexivity].
  apply String.eqb_eq in E as ->. now rewrite Hlk.
Qed.

Lemma existsb_first_appearance (l : string) (labels : list string) :
  existsb (String.eqb l) (first_appearance labels) = existsb (String.eqb l) labels.
Proof.
  induction labels as [|k labels IH]; simpl; [reflexivity|].
  destruct (String.eqb l k) eqn:E; [reflexivity|]. simpl.
  now rewrite existsb_filter_ne.
Qed.

Lemma filter_ne_absent (l : string) (keys : list string) :
  existsb (String.eqb l) keys = false ->
  List.filter (fun l' => negb (String.eqb l' l)) keys = keys.
Proof.
  induction keys as [|k keys IH]; simpl; [reflexivity|].
  intros H. apply orb_false_iff in H as [Hk Hrest].
  rewrite String.eqb_sym, Hk. simpl. now rewrite IH.
Qed.

Lemma first_appearance_snoc (labels : list string) (l : string) :
  first_appearance (labels ++ [l])
  = if existsb (String.eqb l) labels then first_appearance labels
    else first_appearance labels ++ [l].
Proof.
  induction labels as [|k labels IH]; simpl; [reflexivity|]. rewrite IH.
  destruct (String.eqb l k) eqn:E; simpl.
  - apply String.eqb_eq in E as ->.
    destruct (existsb (String.eqb k) labels) eqn:Hin; [reflexivity|].
    rewrite List.filter_app. simpl. rewrite String.eqb_refl. simpl.
    now rewrite app_nil_r.
  - destruct (existsb (String.eqb l) labels); [reflexivity|].
    rewrite List.filter_app. simpl. now rewrite E.
Qed.

Lemma first_appearance_once (labels : list string) (l : string) :
  (length (List.filter (String.eqb l) (first_appearance labels)) <= 1)%nat.
Proof.
  induction labels as [|k labels IH]; simpl; [lia|].
  destruct (String.eqb l k) eqn:E; simpl.
  - apply String.eqb_eq in E as ->.
    assert (H : List.filter (String.eqb k)
                  (List.filter (fun l' => negb (String.eqb l' k)) (first_appearance labels))
                = []).
    { generalize (first_appearance labels). intros keys.
      induction keys as [|k' keys IHk]; simpl; [reflexivity|].
      destruct (String.eqb k' k) eqn:E'; simpl; [exact IHk|].
      now rewrite String.eqb_sym, E'. }
    rewrite H. simpl. lia.
  - etransitivity; [|exact IH].
    generalize (first_appearance labels). intros keys.
    induction keys as [|k' keys IHk]; simpl; [lia|].
    destruct (String.eqb k' k); simpl; destruct (String.eqb l k'); simpl; lia.
Qed.

Lemma own_property_keys {A : Type} (g : string -> A) (keys : list string) (k : string) :
  own_property (map (fun l => (l, g l)) keys) k
  = if existsb (String.eqb k) keys then Some (g k) else None.
Proof.
  induction keys as [|k' keys IH]; simpl; [reflexivity|].
  rewrite (String.eqb_sym k k'). destruct (String.eqb k' k) eqn:E; simpl; [|exact IH].
  now apply String.eqb_eq in E as ->.
Qed.

Lemma push_to_keys {A : Type} (g : string -> list A) (keys : list string) (k : string)
    (x : A) :
  (length (List.filter (String.eqb k) keys) <= 1)%nat ->
  push_to (map (fun l => (l, g l)) keys) k x
  = map (fun l => (l, g l ++ (if String.eqb k l then [x] else []))) keys.
Proof.
  induction keys as [|k' keys IH]; simpl; [reflexivity|].
  rewrite (String.eqb_sym k k'). destruct (String.eqb k' k) eqn:E; simpl.
  - intros Hone. f_equal. apply map_ext_in. intros l Hl.
    destruct (String.eqb k l) eqn:El; [|now rewrite app_nil_r].
    exfalso. assert (Hin : In l (List.filter (String.eqb k) keys))
      by (apply filter_In; now split).
    destruct (List.filter (String.eqb k) keys); [destruct Hin | simpl in Hone; lia].
  - intros Hone. rewrite app_nil_r. f_equal. now apply IH.
Qed.

(** One turn of the grouping loop extends the grouping by label. *)
Lemma group_step_grouped (done : list ComponentSummary) (c : ComponentSummary) :
  inherited_key (sum_category c) = false ->
  group_step (grouped_by_label done) c = Normal (grouped_by_label (done ++ [c])).
Proof.
  intros Hc. unfold group_step, object_get, grouped_by_label.
  rewrite own_property_keys, existsb_first_appearance.
  rewrite map_app. change (map sum_category [c]) with [sum_category c].
  rewrite first_appearance_snoc.
  destruct (existsb (String.eqb (sum_category c)) (map sum_category done)) eqn:Hin.
  - f_equal. rewrite push_to_keys by apply first_appearance_once.
    apply map_ext. intros l. rewrite List.filter_app. simpl.
    now rewrite (String.eqb_sym (sum_category c) l).
  - fold (inherited_key (sum_category c)). rewrite Hc. f_equal.
    rewrite map_app. simpl. f_equal.
    + apply map_ext_in. intros l Hl. rewrite List.filter_app. simpl.
      destruct (String.eqb (sum_category c) l) eqn:E; [|now rewrite app_nil_r].
      apply String.eqb_eq in E as <-. exfalso.
      assert (H : existsb (String.eqb (sum_category c))
                    (first_appearance (map sum_category done)) = true)
        by (apply existsb_exists; exists (sum_category c);
            split; [exact Hl | apply String.eqb_refl]).
      rewrite existsb_first_appearance in H. congruence.
    + rewrite List.filter_app. simpl. rewrite String.eqb_refl.
      assert (H : List.filter (fun c0 => String.eqb (sum_category c0) (sum_category c))
                    done = []).
      { clear Hc. induction done as [|d done IH]; [reflexivity|]. simpl in Hin |- *.
        apply orb_false_iff in Hin as [Hd Hrest].
        rewrite String.eqb_sym, Hd. now apply IH. }
      now rewrite H.
Qed.

Lemma grouping_loop (components done : list ComponentSummary) :
  Forall (fun c => inherited_key (sum_category c) = false) components ->
  foldM group_step (grouped_by_label done) components
  = Normal (grouped_by_label (done ++ components)).
Proof.
  intros H. revert done. induction H as [|c components Hc _ IH]; intros done; simpl.
  - now rewrite app_nil_r.
  - rewrite (group_step_grouped _ _ Hc). simpl. rewrite IH.
    now rewrite <- app_assoc.
Qed.

Lemma Object_entries_creation_order {A : Type} (object : list (string * A)) :
  Forall (fun entry => is_array_index entry.1 = false) object ->
  Object_entries object = object.
Proof.
  intros H. unfold Object_entries.
  assert (Hindex : index_entries object = []).
  { induction H as [|entry object He _ IH]; simpl; [reflexivity|].
    unfold is_array_index in He. destruct (array_index entry.1); [discriminate|].
    exact IH. }
  rewrite Hindex. simpl.
  induction H as [|entry object He _ IH]; simpl; [reflexivity|].
  rewrite He. simpl. f_equal. apply IH.
  clear -Hindex He. simpl in Hindex. unfold is_array_index in He.
  now destruct (array_index entry.1).
Qed.

Lemma grouped_by_label_keys (components : list ComponentSummary) :
  Forall (fun c => is_array_index (sum_category c) = false) components ->
  Forall (fun entry : string * list ComponentSummary => is_array_index entry.1 = false)
    (grouped_by_label components).
Proof.
  intros H. unfold grouped_by_label. apply Forall_forall. intros entry Hentry.
  apply list_elem_of_fmap in Hentry as (l & -> & Hl). simpl.
  assert (Hin : existsb (String.eqb l) (map sum_category components) = true).
  { rewrite <- existsb_first_appearance. apply existsb_exists. exists l.
    split; [now apply list_elem_of_In | apply String.eqb_refl]. }
  apply existsb_exists in Hin as (l' & Hl' & E). apply String.eqb_eq in E as <-.
  apply in_map_iff in Hl' as (c & <- & Hc).
  rewrite Forall_forall in H. apply H. now apply list_elem_of_In.
Qed.

(** Where no category label names a property of [Object.prototype], the two
    listings print the heading with the number of components and then one
    group per label, the labels that are not array indices in the order of
    their first appearance and every component under its label in listing
    order; with no array-index label the groups stand as they were created. *)
Theorem listings_group_by_label (contentData : Content)
    (args : gmap string JsValue) (P : string) (components : list ComponentSummary) :
  listComponents contentData P (prop args "category") = Normal components ->
  components <> [] ->
  Forall (fun c => inherited_key (sum_category c) = false) components ->
  (P = "web" ->
   list_web_components contentData args
   = textResponse
       (listing_heading "Web" (length components)
        +:+ concat_strings
              (map group_text (Object_entries (grouped_by_label components)))))
  /\ (P = "native" ->
      list_native_components contentData args
      = textResponse
          (listing_heading "Native" (length components)
           +:+ "*For iOS (VoiceOver) and Android (TalkBack)*" +:+ nl +:+ nl
           +:+ concat_strings
                 (map group_text (Object_entries (grouped_by_label components)))))
  /\ (Forall (fun c => is_array_index (sum_category c) = false) components ->
      Object_entries (grouped_by_label components) = grouped_by_label components).
Proof.
  intros Hlist Hne Hlabels.
  assert (Hlen : (length components =? 0)%nat = false)
    by (destruct components; [congruence | reflexivity]).
  pose proof (grouping_loop components [] Hlabels) as Hloop. simpl in Hloop.
  change (grouped_by_label []) with (@nil (string * list ComponentSummary)) in Hloop.
  split; [|split].
  - intros ->. unfold list_web_components. rewrite Hlist. simpl.
    rewrite Hlen, Hloop. simpl. unfold listing_heading.
    now rewrite !append_assoc.
  - intros ->. unfold list_native_components. rewrite Hlist. simpl.
    rewrite Hlen, Hloop. simpl. unfold listing_heading.
    now rewrite !append_assoc.
  - intros Hindex. apply Object_entries_creation_order.
    now apply grouped_by_label_keys.
Qed.

Lemma listings_group_by_label_witness :
  list_web_components demo ∅
  = textResponse
      (listing_heading "Web" 2
       +:+ concat_strings
             (map group_text
                (Object_entries
                   (grouped_by_label
                      [mkSummary "checkbox" "Checkbox" "Controls" "controls";
                       mkSummary "button" "Button" "Controls" "controls"])))).
Proof.
  refine (proj1 (listings_group_by_label demo ∅ "web"
                   [mkSummary "checkbox" "Checkbox" "Controls" "controls";
                    mkSummary "button" "Button" "Controls" "controls"] _ _ _) eq_refl).
  - vm_compute. reflexivity.
  - discriminate.
  - repeat constructor.
Defined.

(** A category label that names a property of [Object.prototype] breaks the
    listing: at the first component under such a label the grouping reads the
    inherited property, finds it truthy and calls its missing [push], and the
    handler answers with the error text instead of any component. *)
Theorem listing_fails_on_inherited_label (contentData : Content)
    (args : gmap string JsValue) (P : string)
    (before after : list ComponentSummary) (c : ComponentSummary) :
  listComponents contentData P (prop args "category") = Normal (before ++ c :: after) ->
  Forall (fun c' => inherited_key (sum_category c') = false) before ->
  inherited_key (sum_category c) = true ->
  (P = "web" ->
   list_web_components contentData args
   = textResponse ("Error listing web components: "
                   +:+ "grouped[comp.category].push is not a function"))
  /\ (P = "native" ->
      list_native_components contentData args
      = textResponse ("Error listing native components: "
                      +:+ "grouped[comp.category].push is not a function")).
Proof.
  intros Hlist Hbefore Hc.
  assert (Hlen : (length (before ++ c :: after) =? 0)%nat = false)
    by (destruct before; reflexivity).
  assert (Hloop : foldM group_step [] (before ++ c :: after)
                  = Throw (TypeError "grouped[comp.category].push is not a function")).
  { rewrite foldM_app.
    pose proof (grouping_loop before [] Hbefore) as Hfirst. simpl in Hfirst.
    change (grouped_by_label []) with (@nil (string * list ComponentSummary)) in Hfirst.
    rewrite Hfirst. simpl. unfold group_step, object_get, grouped_by_label.
    rewrite own_property_keys, existsb_first_appearance.
    assert (Hnew : existsb (String.eqb (sum_category c)) (map sum_category before) = false).
    { clear -Hbefore Hc. induction Hbefore as [|d before Hd _ IH]; [reflexivity|].
      simpl. rewrite IH, orb_false_r.
      destruct (String.eqb (sum_category c) (sum_category d)) eqn:E; [|reflexivity].
      apply String.eqb_eq in E. congruence. }
    rewrite Hnew. fold (inherited_key (sum_category c)). now rewrite Hc. }
  split; intros ->.
  - unfold list_web_components. rewrite Hlist. simpl. now rewrite Hlen, Hloop.
  - unfold list_native_components. rewrite Hlist. simpl. now rewrite Hlen, Hloop.
Qed.

Lemma listing_fails_on_inherited_label_witness :
  list_web_components reserved ∅
  = textResponse ("Error listing web components: "
                  +:+ "grouped[comp.category].push is not a function").
Proof.
  refine (proj1 (listing_fails_on_inherited_label reserved ∅ "web" [] []
                   (mkSummary "x" "X" "constructor" "misc") _ _ _) eq_refl).
  - vm_compute. reflexivity.
  - constructor.
  - reflexivity.
Defined.

(** ** JSON-RPC over HTTP *)

Lemma handleJsonRpcRequest_dispatch (tools : list Tool) (request : JsValue) :
  nullish request = false ->
  handleJsonRpcRequest tools request
  = match rpc_dispatch tools (member request "method") (member request "params") with
    | Normal (Some result) => Normal (rpc_result (member request "id") result)
    | Normal None => Normal JNull
    | Throw error => Normal (rpc_error (member request "id") (-32603) (message error))
    end.
Proof. destruct request; try discriminate; reflexivity. Qed.

Lemma rpc_dispatch_none (tools : list Tool) (method params : JsValue) :
  rpc_dispatch tools method params = Normal None
  <-> strict_eq_string method "notifications/initialized" = true.
Proof.
  unfold rpc_dispatch.
  destruct method as [| | | |s| |]; simpl; try (split; discriminate).
  destruct (String.eqb s "initialize") eqn:E1;
    [apply String.eqb_eq in E1 as ->; split; discriminate|].
  destruct (String.eqb s "tools/list") eqn:E2;
    [apply String.eqb_eq in E2 as ->; split; discriminate|].
  destruct (String.eqb s "tools/call") eqn:E3.
  - apply String.eqb_eq in E3 as ->. simpl. split; [|discriminate].
    destruct (get_property params "name") as [name_|]; [|discriminate]. simpl.
    destruct (find_tool tools name_) as [tool|]; [|discriminate].
    destruct (get_property params "arguments") as [arguments|]; [|discriminate]. simpl.
    destruct (tool_handler tool _); discriminate.
  - destruct (String.eqb s "notifications/initialized"); [split; reflexivity|].
    destruct (String.eqb s "ping"); split; discriminate.
Qed.

(** A request that is neither null nor undefined is always answered, never
    rejected: with null exactly when its method is
    'notifications/initialized', and otherwise with an object that carries
    the id of the request and either a result or an error of code -32603. *)
Theorem handleJsonRpcRequest_answers (tools : list Tool) (request : JsValue) :
  nullish request = false ->
  exists response,
    handleJsonRpcRequest tools request = Normal response
    /\ (response = JNull <-> is_notification request = true)
    /\ (is_notification request = false ->
        (exists result, response = rpc_result (member request "id") result)
        \/ (exists text, response = rpc_error (member request "id") (-32603) text)).
Proof.
  intros Hrequest. rewrite (handleJsonRpcRequest_dispatch _ _ Hrequest).
  unfold is_notification.
  pose proof (rpc_dispatch_none tools (member request "method") (member request "params"))
    as Hnone.
  destruct (rpc_dispatch tools _ _) as [[result|]|error]; eexists; (split; [reflexivity|]).
  - split.
    + split; [discriminate|]. intros H. now apply Hnone in H.
    + intros _. left. now exists result.
  - split.
    + split; [intros _; now apply Hnone | reflexivity].
    + intros H. rewrite (proj1 Hnone eq_refl) in H. discriminate.
  - split.
    + split; [discriminate|]. intros H. now apply Hnone in H.
    + intros _. right. now exists (message error).
Qed.

Lemma handleJsonRpcRequest_answers_witness :
  exists response,
    handleJsonRpcRequest Template.tools (JStr "ping") = Normal response
    /\ (response = JNull <-> is_notification (JStr "ping") = true)
    /\ (is_notification (JStr "ping") = false ->
        (exists result, response = rpc_result (member (JStr "ping") "id") result)
        \/ (exists text,
              response = rpc_error (member (JStr "ping") "id") (-32603) text)).
Proof. apply (handleJsonRpcRequest_answers Template.tools (JStr "ping")). reflexivity. Defined.

Lemma strict_eq_string_known (s : string) (text : string) :
  ~ In s known_methods -> In text known_methods ->
  strict_eq_string (JStr s) text = false.
Proof.
  intros Hs Htext. simpl. apply String.eqb_neq. intros ->. now apply Hs.
Qed.

(** What is wrong with a request is reported under the one code -32603: a
    method that the server does not know, a [tools/call] that names no
    registered tool, and a [tools/call] that has no [params]. *)
Theorem request_errors_are_internal_errors (tools : list Tool)
    (id : JsValue) (text : string) :
  (~ In text known_methods ->
   handleJsonRpcRequest tools (JObj [("id", id); ("method", JStr text)])
   = Normal (rpc_error id (-32603) ("Unknown method: " +:+ text)))
  /\ (Forall (fun tool => tool_name tool <> text) tools ->
      forall arguments,
        handleJsonRpcRequest tools (call_request id (JStr text) arguments)
        = Normal (rpc_error id (-32603) ("Unknown tool: " +:+ text)))
  /\ handleJsonRpcRequest tools (JObj [("id", id); ("method", JStr "tools/call")])
     = Normal (rpc_error id (-32603)
                 "Cannot read properties of undefined (reading 'name')").
Proof.
  split; [|split].
  - intros Hunknown. rewrite handleJsonRpcRequest_dispatch by reflexivity.
    unfold member. simpl own_property. simpl default. unfold rpc_dispatch.
    rewrite !(strict_eq_string_known text) by (try exact Hunknown; simpl; auto 6).
    reflexivity.
  - intros Hnone arguments. rewrite handleJsonRpcRequest_dispatch by reflexivity.
    unfold call_request, member. simpl own_property. simpl default.
    unfold rpc_dispatch. simpl.
    assert (Hfind : find_tool tools (JStr text) = None).
    { unfold find_tool. apply find_none_iff. eapply Forall_impl; [exact Hnone|].
      intros tool Hname. simpl. apply String.eqb_neq. congruence. }
    now rewrite Hfind.
  - reflexivity.
Qed.

Lemma request_errors_are_internal_errors_witness :
  handleJsonRpcRequest Template.tools
    (JObj [("id", JNum (Finite 7)); ("method", JStr "resources/list")])
  = Normal (rpc_error (JNum (Finite 7)) (-32603) "Unknown method: resources/list").
Proof.
  apply (proj1 (request_errors_are_internal_errors Template.tools (JNum (Finite 7))
                  "resources/list")).
  simpl. intros H. repeat (destruct H as [H|H]; [discriminate|]). exact H.
Defined.

(** A [tools/call] runs the first tool of the table that has the name, on
    the arguments of the request or on an empty object where they are absent
    or falsy, and turns what the tool returns into a result and what it
    throws into an error of code -32603 with the message of the exception. *)
Theorem tools_call_runs_the_first_match (before after : list Tool) (tool : Tool)
    (id arguments : JsValue) :
  Forall (fun t => tool_name t <> tool_name tool) before ->
  handleJsonRpcRequest (before ++ tool :: after)
    (call_request id (JStr (tool_name tool)) arguments)
  = Normal
      match tool_handler tool (if ToBoolean arguments then arguments else JObj []) with
      | Normal result => rpc_result id result
      | Throw error => rpc_error id (-32603) (message error)
      end.
Proof.
  intros Hbefore. rewrite handleJsonRpcRequest_dispatch by reflexivity.
  unfold call_request, member. simpl own_property. simpl default.
  unfold rpc_dispatch. simpl.
  assert (Hfind : find_tool (before ++ tool :: after) (JStr (tool_name tool)) = Some tool).
  { unfold find_tool. rewrite find_app.
    assert (Hnone : List.find
                      (fun t => strict_eq_string (JStr (tool_name tool)) (tool_name t))
                      before = None).
    { apply find_none_iff. eapply Forall_impl; [exact Hbefore|].
      intros t Hname. simpl. apply String.eqb_neq. congruence. }
    rewrite Hnone. simpl. now rewrite String.eqb_refl. }
  rewrite Hfind. unfold js_or.
  destruct (tool_handler tool _); reflexivity.
Qed.

Lemma tools_call_runs_the_first_match_witness :
  handleJsonRpcRequest Template.tools
    (call_request (JNum (Finite 1)) (JStr "get-greeting") JNull)
  = Normal (rpc_result (JNum (Finite 1))
              (Response_value
                 (textResponse
                    "Hello, undefined! Welcome to test-mcp-hatchery-build."))).
Proof.
  apply (tools_call_runs_the_first_match [Template.echo] [] Template.get_greeting
           (JNum (Finite 1)) JNull).
  repeat constructor. discriminate.
Defined.

Lemma batch_responses_sent (tools : list Tool) (requests responses acc : list JsValue) :
  Forall2 (fun request response => handleJsonRpcRequest tools request = Normal response)
    requests responses ->
  batch_responses tools requests acc = Normal (acc ++ sent responses).
Proof.
  intros H. revert acc.
  induction H as [|request response requests responses Hr _ IH]; intros acc; simpl.
  - now rewrite app_nil_r.
  - rewrite Hr. simpl. rewrite IH. unfold sent. simpl.
    destruct response; simpl; try (now rewrite <- app_assoc). reflexivity.
Qed.

Lemma request_answered (tools : list Tool) (request : JsValue) :
  nullish request = false ->
  exists response,
    handleJsonRpcRequest tools request = Normal response
    /\ is_null response = is_notification request.
Proof.
  intros Hr. rewrite (handleJsonRpcRequest_dispatch tools _ Hr).
  pose proof (rpc_dispatch_none tools (member request "method") (member request "params"))
    as Hnone. unfold is_notification.
  destruct (strict_eq_string (member request "method") "notifications/initialized")
    eqn:E.
  - rewrite (proj2 Hnone eq_refl). now exists JNull.
  - destruct (rpc_dispatch tools _ _) as [[result|]|error]; eexists;
      (split; [reflexivity|]); try reflexivity.
    pose proof (proj1 Hnone eq_refl). discriminate.
Qed.

Lemma requests_answered (tools : list Tool) (requests : list JsValue) :
  Forall (fun request => nullish request = false) requests ->
  exists responses,
    Forall2 (fun request response =>
               handleJsonRpcRequest tools request = Normal response
               /\ is_null response = is_notification request)
      requests responses.
Proof.
  induction 1 as [|request requests Hr _ [responses IH]]; [exists []; constructor|].
  destruct (request_answered tools request Hr) as [response Hresponse].
  exists (response :: responses). now constructor.
Qed.

(** A POST whose body parses to an array of requests, none of them null, is
    answered with status 200 and the responses of the requests in their
    order, those of the notifications left out; a single response is sent
    bare, not in an array, and a batch of notifications only is answered
    with an empty array. *)
Theorem batch_is_answered_in_order (tools : list Tool)
    (JSON_parse : string -> Completion JsValue) (JSON_stringify : JsValue -> string)
    (event : HttpEvent) (requests : list JsValue) :
  httpMethod event = JStr "POST" ->
  JSON_parse (ToString (body event)) = Normal (JArr requests) ->
  Forall (fun request => nullish request = false) requests ->
  exists responses,
    Forall2 (fun request response =>
               handleJsonRpcRequest tools request = Normal response
               /\ is_null response = is_notification request)
      requests responses
    /\ handler tools JSON_parse JSON_stringify event
       = mkHttp 200 jsonHeaders (JSON_stringify (batch_body (sent responses))).
Proof.
  intros Hpost Hparse Hrequests.
  destruct (requests_answered tools requests Hrequests) as [responses Hresponses].
  exists responses. split; [exact Hresponses|].
  unfold handler. rewrite Hpost, Hparse. simpl.
  rewrite (batch_responses_sent tools requests responses []);
    [reflexivity|].
  eapply Forall2_impl; [exact Hresponses|]. now intros request response [H _].
Qed.

Lemma batch_is_answered_in_order_witness :
  exists responses,
    Forall2 (fun request response =>
               handleJsonRpcRequest Template.tools request = Normal response
               /\ is_null response = is_notification request)
      [JObj [("id", JNum (Finite 1)); ("method", JStr "ping")];
       JObj [("method", JStr "notifications/initialized")]]
      responses
    /\ handler Template.tools example_parse example_stringify
         (mkEvent (JStr "POST") (JStr "[ping, initialized]"))
       = mkHttp 200 jsonHeaders (example_stringify (batch_body (sent responses))).
Proof.
  apply (batch_is_answered_in_order Template.tools example_parse example_stringify
           (mkEvent (JStr "POST") (JStr "[ping, initialized]"))).
  - reflexivity.
  - reflexivity.
  - repeat constructor.
Defined.

(** A POST of one request that is not null is answered with status 202 and
    an empty body when the request is the notification, and with status 200
    and the response otherwise: the same notification sent alone in a batch
    is answered with 200 and an array. *)
Theorem single_request_status (tools : list Tool)
    (JSON_parse : string -> Completion JsValue) (JSON_stringify : JsValue -> string)
    (event : HttpEvent) (request : JsValue) :
  httpMethod event = JStr "POST" ->
  JSON_parse (ToString (body event)) = Normal request ->
  nullish request = false ->
  (forall requests, request <> JArr requests) ->
  (is_notification request = true ->
   handler tools JSON_parse JSON_stringify event = mkHttp 202 corsHeaders ""
   /\ forall batch,
        httpMethod batch = JStr "POST" ->
        JSON_parse (ToString (body batch)) = Normal (JArr [request]) ->
        handler tools JSON_parse JSON_stringify batch
        = mkHttp 200 jsonHeaders (JSON_stringify (JArr [])))
  /\ (is_notification request = false ->
      exists response,
        handleJsonRpcRequest tools request = Normal response
        /\ handler tools JSON_parse JSON_stringify event
           = mkHttp 200 jsonHeaders (JSON_stringify response)).
Proof.
  intros Hpost Hparse Hrequest Hsingle.
  destruct (request_answered tools request Hrequest) as (response & Hr & Hnull).
  assert (Hhandler :
            handler tools JSON_parse JSON_stringify event
            = if is_null response then mkHttp 202 corsHeaders ""
              else mkHttp 200 jsonHeaders (JSON_stringify response)).
  { unfold handler. rewrite Hpost, Hparse. simpl.
    destruct request; try discriminate; try (now destruct (Hsingle _ eq_refl));
      rewrite Hr; simpl; destruct response; reflexivity. }
  rewrite Hnull in Hhandler. split; intros Hnotification;
    rewrite Hnotification in Hhandler, Hnull.
  - split; [exact Hhandler|].
    intros batch Hbatch Hbody. unfold handler. rewrite Hbatch, Hbody. simpl.
    rewrite Hr. simpl. now destruct response.
  - exists response. now split.
Qed.

Lemma single_request_status_witness :
  handler Template.tools example_parse example_stringify
    (mkEvent (JStr "POST") (JStr "initialized"))
  = mkHttp 202 corsHeaders ""
  /\ forall batch,
       httpMethod batch = JStr "POST" ->
       example_parse (ToString (body batch))
       = Normal (JArr [JObj [("method", JStr "notifications/initialized")]]) ->
       handler Template.tools example_parse example_stringify batch
       = mkHttp 200 jsonHeaders (example_stringify (JArr [])).
Proof.
  refine (proj1 (single_request_status Template.tools example_parse example_stringify
                   (mkEvent (JStr "POST") (JStr "initialized"))
                   (JObj [("method", JStr "notifications/initialized")]) _ _ _ _)
            eq_refl).
  - reflexivity.
  - reflexivity.
  - reflexivity.
  - discriminate.
Defined.

(** A null in the place of a request is reported as a parse error, although
    the body did parse: a POST whose body is null, or an array with a null
    in it, is answered with status 400 and code -32700, and the responses to
    the requests that stood before the null are not sent. *)
Theorem null_request_is_a_parse_error (tools : list Tool)
    (JSON_parse : string -> Completion JsValue) (JSON_stringify : JsValue -> string)
    (event : HttpEvent) (before after : list JsValue) :
  httpMethod event = JStr "POST" ->
  Forall (fun request => nullish request = false) before ->
  JSON_parse (ToString (body event)) = Normal JNull
  \/ JSON_parse (ToString (body event)) = Normal (JArr (before ++ JNull :: after)) ->
  handler tools JSON_parse JSON_stringify event
  = mkHttp 400 jsonHeaders
      (JSON_stringify
         (rpc_error JNull (-32700)
            ("Parse error: Cannot destructure property 'method' of 'request' "
             +:+ "as it is null."))).
Proof.
  intros Hpost Hbefore [Hparse|Hparse]; unfold handler; rewrite Hpost, Hparse; simpl.
  - reflexivity.
  - assert (Hloop : forall acc,
               batch_responses tools (before ++ JNull :: after) acc
               = Throw (TypeError (cannot_destructure JNull))).
    { clear -Hbefore. induction Hbefore as [|request before Hr _ IH]; intros acc;
        [reflexivity|]. simpl.
      destruct (requests_answered tools [request]) as [responses Hresponses];
        [now constructor|].
      apply Forall2_cons_inv_l in Hresponses as (response & rest & [Hresponse _] & _ & _).
      rewrite Hresponse. simpl. apply IH. }
    rewrite Hloop. reflexivity.
Qed.

Lemma null_request_is_a_parse_error_witness :
  handler Template.tools example_parse example_stringify
    (mkEvent (JStr "POST") (JStr "[null]"))
  = mkHttp 400 jsonHeaders
      (example_stringify
         (rpc_error JNull (-32700)
            ("Parse error: Cannot destructure property 'method' of 'request' "
             +:+ "as it is null."))).
Proof.
  apply (null_request_is_a_parse_error Template.tools example_parse example_stringify
           (mkEvent (JStr "POST") (JStr "[null]")) [] []).
  - reflexivity.
  - constructor.
  - right. reflexivity.
Defined.

(** ** A query that is not a pattern *)

Lemma score_field_skips `{host : Host} (normalizedQuery : string) (c : Component)
    (acc : Z * list string) (fw : string * Z) :
  field_counts normalizedQuery c fw.1 = false ->
  score_field normalizedQuery c acc fw = Normal acc.
Proof.
  unfold score_field, field_counts.
  destruct (Component_get c fw.1) as [| |b|n|v|l|o]; simpl;
    rewrite ?andb_false_r, ?andb_true_r; try reflexivity.
  destruct (negb (String.eqb v "")); simpl; [|reflexivity].
  now intros ->.
Qed.

Lemma foldM_score_rejected `{host : Host} (normalizedQuery : string) (c : Component)
    (error : JsError) (fields : list (string * Z)) (acc : Z * list string) :
  isLiteralPattern normalizedQuery = false ->
  (forall subject, RegExp_engine normalizedQuery subject = Throw error) ->
  foldM (score_field normalizedQuery c) acc fields
  = if existsb (fun fw => field_counts normalizedQuery c fw.1) fields
    then Throw error else Normal acc.
Proof.
  intros Hq Hengine. induction fields as [|fw fields IH]; simpl; [reflexivity|].
  destruct (field_counts normalizedQuery c fw.1) eqn:E; simpl.
  - assert (Hv : exists v, Component_get c fw.1 = JStr v).
    { unfold field_counts in E. destruct (Component_get c fw.1); try discriminate.
      now eexists. }
    destruct Hv as [v Hv].
    now rewrite (score_field_pattern _ _ _ _ _ Hq Hv E), Hengine.
  - rewrite (score_field_skips _ _ _ _ E). simpl. exact IH.
Qed.

Lemma search_children_rejected `{host : Host} (normalizedQuery : string)
    (cat : Category) (error : JsError) (cs : list Component)
    (results : list ScoredMatch) :
  isLiteralPattern normalizedQuery = false ->
  (forall subject, RegExp_engine normalizedQuery subject = Throw error) ->
  search_children normalizedQuery cat cs results
  = if existsb (has_match normalizedQuery) cs then Throw error else Normal results.
Proof.
  intros Hq Hengine. induction cs as [|c cs IH]; cbn [search_children existsb];
    [reflexivity|].
  rewrite (foldM_score_rejected _ _ error _ _ Hq Hengine). fold (has_match normalizedQuery c).
  destruct (has_match normalizedQuery c); simpl; [reflexivity | exact IH].
Qed.

Lemma search_categories_rejected `{host : Host} (normalizedQuery : string)
    (error : JsError) (platformData : list Category) (results : list ScoredMatch) :
  isLiteralPattern normalizedQuery = false ->
  (forall subject, RegExp_engine normalizedQuery subject = Throw error) ->
  search_categories normalizedQuery platformData results
  = if existsb (fun r => has_match normalizedQuery (component r))
         (components_in_scan_order platformData)
    then Throw error else Normal results.
Proof.
  intros Hq Hengine. induction platformData as [|cat rest IH]; simpl; [reflexivity|].
  unfold components_in_scan_order. simpl. fold (components_in_scan_order rest).
  rewrite existsb_app. destruct (children cat) as [cs|]; simpl; [|exact IH].
  rewrite (search_children_rejected _ _ error _ _ Hq Hengine).
  assert (Hcs : existsb (fun r => has_match normalizedQuery (component r))
                  (map (resolve cat) cs)
                = existsb (has_match normalizedQuery) cs).
  { clear. induction cs as [|c cs IHc]; simpl; [reflexivity|]. now rewrite IHc. }
  rewrite Hcs. destruct (existsb (has_match normalizedQuery) cs); simpl;
    [reflexivity | exact IH].
Qed.

(** The query is handed to the RegExp constructor as it stands.  For a
    normalized query that the constructor rejects as a pattern, the search
    throws the constructor's error as soon as some weighted field of some
    component contains the query, whatever [maxResults], and it returns no
    result otherwise: such a query never yields a match. *)
Theorem search_rejects_what_is_no_pattern `{host : Host} (contentData : Content)
    (P : string) (platformData : list Category) (query : string)
    (maxResults : JsValue) (error : JsError) :
  contentData !! P = Some platformData ->
  query <> EmptyString ->
  isLiteralPattern (trim (toLowerCase query)) = false ->
  (forall subject, RegExp_engine (trim (toLowerCase query)) subject = Throw error) ->
  searchComponents contentData P (JStr query) maxResults
  = if existsb (fun r => has_match (trim (toLowerCase query)) (component r))
         (components_in_scan_order platformData)
    then Throw error else Normal [].
Proof.
  intros HP Hquery Hq Hengine. unfold searchComponents, loadContent. rewrite HP.
  simpl ToBoolean.
  destruct (String.eqb query EmptyString) eqn:E; [now apply String.eqb_eq in E|].
  simpl. rewrite (search_categories_rejected _ error _ _ Hq Hengine).
  destruct (existsb _ _); [reflexivity|]. simpl.
  unfold Array_slice_0. simpl. now rewrite take_nil.
Qed.

Lemma search_rejects_what_is_no_pattern_witness :
  searchComponents (host := example_host) variants "web" (JStr "(") JUndefined
  = Throw (mkError "SyntaxError" "Invalid regular expression: /(/g").
Proof.
  apply (search_rejects_what_is_no_pattern (host := example_host) variants "web"
           [mkCategory "controls" "Controls" (Some [plain "button" "Button (primary)"])]
           "(" JUndefined
           (mkError "SyntaxError" "Invalid regular expression: /(/g")).
  - reflexivity.
  - discriminate.
  - reflexivity.
  - reflexivity.
Defined.

(** ** The two ways to a tool *)

(** The stateless endpoint and the handler registered on the SDK server
    treat a [tools/call] alike as long as the request carries truthy
    arguments: the same tool is run on the same arguments, and the same
    [Unknown tool] error is raised.  Where the arguments are absent or falsy
    they part: the registered handler hands them to the tool as they are,
    the stateless endpoint hands it an empty object. *)
Theorem stateless_call_agrees_with_registered (tools : list Tool)
    (id name_ arguments : JsValue) :
  (ToBoolean arguments = true ->
   handleJsonRpcRequest tools (call_request id name_ arguments)
   = Normal (outcome_response id (CallTool tools (call_request id name_ arguments))))
  /\ (forall tool,
        ToBoolean arguments = false ->
        find_tool tools name_ = Some tool ->
        CallTool tools (call_request id name_ arguments) = tool_handler tool arguments
        /\ handleJsonRpcRequest tools (call_request id name_ arguments)
           = Normal (outcome_response id (tool_handler tool (JObj [])))).
Proof.
  split.
  - intros Htruthy. rewrite handleJsonRpcRequest_dispatch by reflexivity.
    unfold call_request, member, CallTool. simpl own_property. simpl default.
    unfold rpc_dispatch. simpl.
    destruct (find_tool tools name_) as [tool|]; [|reflexivity].
    unfold js_or. rewrite Htruthy.
    destruct (tool_handler tool arguments); reflexivity.
  - intros tool Hfalsy Hfind. split.
    + unfold call_request, CallTool. simpl. now rewrite Hfind.
    + rewrite handleJsonRpcRequest_dispatch by reflexivity.
      unfold call_request, member. simpl own_property. simpl default.
      unfold rpc_dispatch. simpl. rewrite Hfind. unfold js_or. rewrite Hfalsy.
      destruct (tool_handler tool (JObj [])); reflexivity.
Qed.

Lemma stateless_call_agrees_with_registered_witness :
  CallTool Template.tools (call_request (JNum (Finite 1)) (JStr "echo") JNull)
  = Throw (TypeError "Cannot read properties of null (reading 'message')")
  /\ handleJsonRpcRequest Template.tools (call_request (JNum (Finite 1)) (JStr "echo") JNull)
     = Normal (rpc_result (JNum (Finite 1))
                 (Response_value (textResponse "Echo: undefined"))).
Proof.
  apply (proj2 (stateless_call_agrees_with_registered Template.tools (JNum (Finite 1))
                  (JStr "echo") JNull) Template.echo); reflexivity.
Defined.

(** ** A filter that selects nothing *)

Lemma scan_order_empty (platformData : list Category) :
  Forall (fun cat => default [] (children cat) = []) platformData ->
  components_in_scan_order platformData = [].
Proof.
  induction 1 as [|cat rest Hcat _ IH]; [reflexivity|].
  unfold components_in_scan_order. simpl. fold (components_in_scan_order rest).
  rewrite IH, app_nil_r. destruct (children cat) as [cs|]; [|reflexivity].
  simpl in Hcat. now subst.
Qed.

Lemma empty_selection (contentData : Content) (P : string)
    (platformData : list Category) (wanted : string) :
  contentData !! P = Some platformData ->
  wanted <> EmptyString ->
  Forall (fun cat => selected_by wanted cat = true -> default [] (children cat) = [])
    platformData ->
  listComponents contentData P (JStr wanted) = Normal []
  /\ no_components_in_category (JStr wanted) (listCategories contentData P)
     = "No components found in category " +:+ dquote +:+ wanted +:+ dquote +:+ "."
       +:+ nl +:+ nl +:+ "Available categories:" +:+ nl
       +:+ join nl (map category_count_line platformData).
Proof.
  intros HP Hwanted Hempty. split.
  - unfold listComponents, loadContent. rewrite HP.
    rewrite (listComponents_loop_selected _ _ _ Hwanted). simpl.
    rewrite scan_order_empty; [reflexivity|].
    apply Forall_forall. intros cat Hcat. apply list_elem_of_In, filter_In in Hcat as [Hin Hsel].
    rewrite Forall_forall in Hempty. apply Hempty; [now apply list_elem_of_In | exact Hsel].
  - unfold no_components_in_category, listCategories, loadContent. rewrite HP.
    rewrite map_map.
    rewrite (map_ext _ category_count_line); [reflexivity|]. intros cat.
    unfold category_line, category_count_line. simpl. now destruct (children cat).
Qed.

(** A category filter that selects no component, because no category has the
    name or because the one that has it is empty or has no children, is
    answered with all the categories of the platform and the number of
    components of each, not with an empty listing. *)
Theorem listing_of_an_empty_selection (contentData : Content)
    (platformData : list Category) (args : gmap string JsValue) (wanted : string) :
  prop args "category" = JStr wanted ->
  wanted <> EmptyString ->
  Forall (fun cat => selected_by wanted cat = true -> default [] (children cat) = [])
    platformData ->
  (contentData !! "web" = Some platformData ->
   list_web_components contentData args
   = textResponse
       ("No components found in category " +:+ dquote +:+ wanted +:+ dquote +:+ "."
        +:+ nl +:+ nl +:+ "Available categories:" +:+ nl
        +:+ join nl (map category_count_line platformData)))
  /\ (contentData !! "native" = Some platformData ->
      list_native_components contentData args
      = textResponse
          ("No components found in category " +:+ dquote +:+ wanted +:+ dquote +:+ "."
           +:+ nl +:+ nl +:+ "Available categories:" +:+ nl
           +:+ join nl (map category_count_line platformData))).
Proof.
  intros Hcategory Hwanted Hempty.
  assert (Htruthy : ToBoolean (JStr wanted) = true).
  { simpl. destruct (String.eqb wanted EmptyString) eqn:E; [|reflexivity].
    now apply String.eqb_eq in E. }
  split; intros HP;
    destruct (empty_selection _ _ _ _ HP Hwanted Hempty) as [Hlist Htext];
    unfold list_web_components, list_native_components;
    rewrite Hcategory, Hlist; simpl "=?"%nat; cbn [mbind Completion_bind length];
    simpl Nat.eqb; cbv iota; rewrite Htruthy, Htext; reflexivity.
Qed.

Lemma listing_of_an_empty_selection_witness :
  list_native_components demo {[ "category" := JStr "Empty" ]}
  = textResponse
      ("No components found in category " +:+ dquote +:+ "Empty" +:+ dquote +:+ "."
       +:+ nl +:+ nl +:+ "Available categories:" +:+ nl
       +:+ join nl (map category_count_line [childless])).
Proof.
  refine (proj2 (listing_of_an_empty_selection demo [childless]
                   {[ "category" := JStr "Empty" ]} "Empty" _ _ _) _).
  - reflexivity.
  - discriminate.
  - repeat constructor.
  - reflexivity.
Defined.
